(** * Admin console: connector / credential workflow and bot-config table

    A shallow embedding of the client-side logic of the admin pages
    (Notion, Slack, Google Drive connectors; Slack bot configuration) and of
    the source metadata table.  Event handlers are programs of a small free
    monad whose operations are the effects the handlers perform (fetch, the
    React popup state setter, setTimeout, cache mutate, router push); render
    functions return the list of sections they present. *)

From Stdlib Require Import ZArith QArith Qround.
From stdpp Require Import base decidable option list strings gmap pretty sorting.

Local Open Scope string_scope.
Local Open Scope list_scope.
Local Open Scope Z_scope.

(** ** JavaScript values and built-ins used by the pages *)

Module Js.

(** JSON values as they arrive in [credential_json] and in response
    bodies.  Numbers are kept as integers: the pages only test them for
    truthiness and print ids.  Arrays and objects are opaque (always
    truthy). *)
Inductive Value : Type :=
| Null
| Bool (b : bool)
| Num (n : Z)
| Str (s : string)
| Composite.

(** ToBoolean.  A missing property reads as [undefined], which is falsy;
    that case is [None] in [truthy_opt]. *)
Definition truthy (v : Value) : bool :=
  match v with
  | Null => false
  | Bool b => b
  | Num n => negb (n =? 0)
  | Str s => negb (String.eqb s "")
  | Composite => true
  end.

Definition truthy_opt (v : option Value) : bool :=
  match v with
  | None => false
  | Some v => truthy v
  end.

(** ToString, as applied by a template literal. *)
Definition to_string (v : option Value) : string :=
  match v with
  | None => "undefined"
  | Some Null => "null"
  | Some (Bool true) => "true"
  | Some (Bool false) => "false"
  | Some (Num n) => pretty n
  | Some (Str s) => s
  | Some Composite => "[object Object]"
  end.

Inductive Error : Type :=
| TypeError (msg : string)
| SyntaxError (msg : string)
| PlainError (msg : string).

(** [String.prototype.includes]. *)
Fixpoint includes (hay needle : string) : bool :=
  String.prefix needle hay ||
  match hay with
  | EmptyString => false
  | String _ hay' => includes hay' needle
  end.

(** [Array.prototype.slice(start, end)] with its relative-index rules:
    a negative bound counts from the end, and both bounds are clamped to
    the array. *)
Definition slice {A} (start end_ : Z) (l : list A) : list A :=
  let len := Z.of_nat (length l) in
  let k := if start <? 0 then Z.max (len + start) 0 else Z.min start len in
  let final := if end_ <? 0 then Z.max (len + end_) 0 else Z.min end_ len in
  take (Z.to_nat (final - k)) (drop (Z.to_nat k) l).

(** [Array.prototype.sort(comparefn)].  The language requires a stable
    sort; the reference algorithm here is insertion sort, where an element
    goes in front of the first later element that does not compare below
    it, so equal elements keep their input order. *)
Fixpoint sort_insert {A} (cmp : A -> A -> Z) (x : A) (l : list A) : list A :=
  match l with
  | [] => [x]
  | y :: l' => if cmp x y <=? 0 then x :: y :: l' else y :: sort_insert cmp x l'
  end.

Fixpoint sort {A} (cmp : A -> A -> Z) (l : list A) : list A :=
  match l with
  | [] => []
  | x :: l' => sort_insert cmp x (sort cmp l')
  end.

(** [Math.ceil(n / d)] on array lengths: the quotient is a rational, and
    for lengths below 2^53 the floating-point quotient has the same
    ceiling. *)
Definition ceil_div (n d : Z) : Z := Qceiling (inject_Z n / inject_Z d).

End Js.

(** ** The source metadata table *)

Module Source.

(** The icon components of [icons/icons]. *)
Inductive Icon : Type :=
| GlobeIcon
| SlackIcon
| GoogleDriveIcon
| GithubIcon.

(** What an icon component returns: the element with its [size] prop. *)
Record IconElement : Type := { icon_of : Icon; size : string }.

Record SourceMetadata : Type := {
  icon : Icon;
  displayName : string;
  adminPageLink : string;
}.

(** A call either returns or throws. *)
Definition Result (A : Type) : Type := Js.Error + A.

Definition getSourceMetadata (sourceType : string) : Result SourceMetadata :=
  if String.eqb sourceType "web" then
    inr {| icon := GlobeIcon;
           displayName := "Web";
           adminPageLink := "/admin/connectors/web" |}
  else if String.eqb sourceType "slack" then
    inr {| icon := SlackIcon;
           displayName := "Slack";
           adminPageLink := "/admin/connectors/slack" |}
  else if String.eqb sourceType "google_drive" then
    inr {| icon := GoogleDriveIcon;
           displayName := "Google Drive";
           adminPageLink := "/admin/connectors/google-drive" |}
  else if String.eqb sourceType "github" then
    inr {| icon := GithubIcon;
           displayName := "Github PRs";
           adminPageLink := "/admin/connectors/github" |}
  else inl (Js.PlainError "Invalid source type").

Definition getSourceIcon (sourceType iconSize : string) : Result IconElement :=
  match getSourceMetadata sourceType with
  | inl e => inl e
  | inr m => inr {| icon_of := icon m; size := iconSize |}
  end.

Definition getSourceDisplayName (sourceType : string) : Result string :=
  match getSourceMetadata sourceType with
  | inl e => inl e
  | inr m => inr (displayName m)
  end.

(** The filter list of [SourceSelector]. *)
Record SelectorSource : Type := {
  sel_displayName : string;
  internalName : string;
}.

Definition sources : list SelectorSource :=
  [ {| sel_displayName := "Google Drive"; internalName := "google_drive" |};
    {| sel_displayName := "Slack"; internalName := "slack" |};
    {| sel_displayName := "Confluence"; internalName := "confluence" |};
    {| sel_displayName := "Github PRs"; internalName := "github" |};
    {| sel_displayName := "Web"; internalName := "web" |} ].

(** The rows [SourceSelector] renders: one icon per offered source that
    exists; the first throwing [getSourceIcon] aborts the render. *)
Fixpoint renderIcons (l : list SelectorSource) : Result (list IconElement) :=
  match l with
  | [] => inr []
  | s :: l' =>
      match getSourceIcon (internalName s) "16" with
      | inl e => inl e
      | inr i =>
          match renderIcons l' with
          | inl e => inl e
          | inr rest => inr (i :: rest)
          end
      end
  end.

Definition SourceSelector (existingSources : list string) : Result (list IconElement) :=
  renderIcons
    (filter (fun s => internalName s ∈ existingSources) sources).

Definition supported : list string := ["web"; "slack"; "google_drive"; "github"].

End Source.

(** ** Data model *)

Module Credential.
Record t : Type := {
  id : Z;
  credential_json : option (gmap string Js.Value);
  public_doc : bool;
}.

(** [credential.credential_json?.key], read as a condition. *)
Definition has_marker (key : string) (c : t) : bool :=
  match credential_json c with
  | None => false
  | Some json => Js.truthy_opt (json !! key)
  end.

(** [credential.credential_json?.key], read as a value. *)
Definition token (key : string) (c : t) : option Js.Value :=
  match credential_json c with
  | None => None
  | Some json => json !! key
  end.
End Credential.

Module Connector.
Record t : Type := {
  id : Z;
  name : string;
  source : string;
  input_type : string;
  connector_specific_config : gmap string Js.Value;
  refresh_freq : Z;
  disabled : bool;
  credential_ids : list Z;
}.
End Connector.

Module ConnectorIndexingStatus.
Record t : Type := {
  connector : Connector.t;
  last_status : option string;
  last_success : option string;
}.
End ConnectorIndexingStatus.

Module SlackBotConfig.
Record ChannelConfig : Type := {
  channel_names : list string;
  respond_team_member_list : option (list string);
  answer_filters : option (list string);
  respond_tag_only : option bool;
}.

Record DocumentSet : Type := { ds_id : Z; ds_name : string }.

Record t : Type := {
  id : Z;
  channel_config : ChannelConfig;
  document_sets : list DocumentSet;
}.
End SlackBotConfig.

(** ** Effects of event handlers *)

Module Http.
Inductive Method : Type := GET | POST | PUT | DELETE.

Inductive Body : Type :=
| NoBody
| RawBody (s : string)
| JsonBody (fields : list (string * Js.Value)).

Record Request : Type := {
  method : Method;
  url : string;
  headers : list (string * string);
  body : Body;
}.

(** A fetch [Response]: the status line, the body as text, and the body
    parsed as a JSON object when it is one. *)
Record Response : Type := {
  status : N;
  text : string;
  json : option (gmap string Js.Value);
}.

(** [response.ok]: the status is in the range 200-299. *)
Definition ok (r : Response) : bool :=
  ((200 <=? status r) && (status r <=? 299))%N.

Definition json_headers : list (string * string) :=
  [("Content-Type", "application/json")].
End Http.

Module Popup.
Inductive Kind : Type := success | error.
Record PopupSpec : Type := { message : string; type : Kind }.
End Popup.

Module Eff.
Import Http Popup.

(** The callbacks the pages pass to [setTimeout]; the only one is
    [() => setPopup(null)]. *)
Inductive TimerCallback : Type := ClearPopup.

Inductive Action : Type :=
| SetPopup (p : option PopupSpec)
| SetTimeout (cb : TimerCallback) (delay : Z)
| Mutate (key : string)
| Refresh
| RouterPush (url : option Js.Value).

(** A handler: it returns, throws, awaits a fetch, or performs an
    action and goes on. *)
Inductive Prog (A : Type) : Type :=
| Ret (a : A)
| Throw (e : Js.Error)
| Fetch (req : Request) (k : Response -> Prog A)
| Do (a : Action) (k : Prog A).
Arguments Ret {A} a.
Arguments Throw {A} e.
Arguments Fetch {A} req k.
Arguments Do {A} a k.

Fixpoint bind {A B} (f : A -> Prog B) (p : Prog A) : Prog B :=
  match p with
  | Ret a => f a
  | Throw e => Throw e
  | Fetch req k => Fetch req (fun r => bind f (k r))
  | Do a k => Do a (bind f k)
  end.

#[export] Instance Prog_ret : MRet Prog := @Ret.
#[export] Instance Prog_bind : MBind Prog := @bind.

Definition fetch (req : Request) : Prog Response := Fetch req Ret.
Definition act (a : Action) : Prog unit := Do a (Ret tt).
Definition throw {A} (e : Js.Error) : Prog A := Throw e.

(** [response.json()] rejects with a SyntaxError on a body that is not
    JSON. *)
Definition response_json (r : Response) : Prog (gmap string Js.Value) :=
  match json r with
  | Some j => Ret j
  | None => Throw (Js.SyntaxError "Unexpected token")
  end.

(** Reading [.id] of a value that may be [undefined]. *)
Definition get_id (c : option Credential.t) : Prog Z :=
  match c with
  | Some c => Ret (Credential.id c)
  | None => Throw (Js.TypeError "Cannot read properties of undefined (reading 'id')")
  end.

Inductive Event : Type :=
| Called (req : Request) (resp : Response)
| Did (a : Action).

(** What a handler runs against: the popup React state, a clock in
    milliseconds with the pending timers, and the trace of what has
    happened so far. *)
Record World : Type := {
  popup : option PopupSpec;
  clock : Z;
  timers : list (Z * TimerCallback);
  trace : list Event;
}.

(** The backend answers a request knowing everything that came before. *)
Definition Backend : Type := list Event -> Request -> Response.

Inductive Outcome (A : Type) : Type :=
| Returned (a : A)
| Threw (e : Js.Error).
Arguments Returned {A} a.
Arguments Threw {A} e.

Definition record (e : Event) (w : World) : World :=
  {| popup := popup w; clock := clock w; timers := timers w;
     trace := trace w ++ [e] |}.

Definition perform (a : Action) (w : World) : World :=
  record (Did a)
    match a with
    | SetPopup p =>
        {| popup := p; clock := clock w; timers := timers w; trace := trace w |}
    | SetTimeout cb delay =>
        {| popup := popup w; clock := clock w;
           timers := timers w ++ [(clock w + delay, cb)]; trace := trace w |}
    | Mutate _ | Refresh | RouterPush _ => w
    end.

Fixpoint run {A} (b : Backend) (p : Prog A) (w : World) : Outcome A * World :=
  match p with
  | Ret a => (Returned a, w)
  | Throw e => (Threw e, w)
  | Fetch req k =>
      let resp := b (trace w) req in
      run b (k resp) (record (Called req resp) w)
  | Do a k => run b k (perform a w)
  end.

(** The event loop between handlers: time passes, and every timer that
    has come due runs its callback, oldest registration first. *)
Definition fire (cb : TimerCallback) (w : World) : World :=
  match cb with
  | ClearPopup =>
      {| popup := None; clock := clock w; timers := timers w; trace := trace w |}
  end.

Definition advance (dt : Z) (w : World) : World :=
  let now := clock w + dt in
  let due := filter (fun t => t.1 <= now) (timers w) in
  let pending := filter (fun t => ~ t.1 <= now) (timers w) in
  foldl (fun w t => fire t.2 w)
    {| popup := popup w; clock := now; timers := pending; trace := trace w |}
    due.

Definition initial : World :=
  {| popup := None; clock := 0; timers := []; trace := [] |}.

(** The requests sent while going from one trace to a longer one. *)
Definition calls (tr : list Event) : list Request :=
  omap (fun e => match e with Called req _ => Some req | Did _ => None end) tr.

Definition signals (tr : list Event) : list Action :=
  omap (fun e => match e with Did a => Some a | Called _ _ => None end) tr.

End Eff.

(** ** Helpers the pages import *)

Module Lib.
Import Http Popup Eff.

(** Modelled from the spec: [deleteCredential] of [lib/credential], which
    is not among the sources.  Section 6: delete credential is
    DELETE /api/manage/credential/{id}; the call yields the response,
    whatever its status. *)
Definition deleteCredential_request (credentialId : Z) : Request :=
  {| method := DELETE;
     url := "/api/manage/credential/" +:+ pretty credentialId;
     headers := json_headers; body := NoBody |}.

Definition deleteCredential (credentialId : Z) : Prog Response :=
  fetch (deleteCredential_request credentialId).

(** Modelled from the spec: [linkCredential] of [lib/credential], which is
    not among the sources.  Section 6: link credential is
    PUT /api/admin/connector/{connectorId}/credential/{credentialId}. *)
Definition linkCredential_request (connectorId credentialId : Z) : Request :=
  {| method := PUT;
     url := "/api/admin/connector/" +:+ pretty connectorId
            +:+ "/credential/" +:+ pretty credentialId;
     headers := json_headers; body := NoBody |}.

Definition linkCredential (connectorId credentialId : Z) : Prog Response :=
  fetch (linkCredential_request connectorId credentialId).

(** Modelled from the spec: [deleteConnector] of [lib/connector], which is
    not among the sources.  Section 6: delete connector is
    DELETE /api/manage/connector/{id}. *)
Definition deleteConnector (connectorId : Z) : Prog Response :=
  fetch {| method := DELETE;
           url := "/api/manage/connector/" +:+ pretty connectorId;
           headers := json_headers; body := NoBody |}.

(** Modelled from the spec: [deleteSlackBotConfig] of the bot page's
    [lib], which is not among the sources.  Section 6 gives the method
    (DELETE) and leaves the path below /admin/bot/ to the backend; its
    caller reads [ok] and [text()] of what it returns. *)
Definition deleteSlackBotConfig_request (id : Z) : Request :=
  {| method := DELETE;
     url := "/admin/bot/" +:+ pretty id;
     headers := json_headers; body := NoBody |}.

Definition deleteSlackBotConfig (id : Z) : Prog Response :=
  fetch (deleteSlackBotConfig_request id).

(** Modelled from the spec: the [setPopup] that the [usePopup] hook of
    [components/admin/connectors/Popup] hands out; the hook is not among
    the sources.  Section 4.1: the notice expires by itself after the
    fixed interval of 4000 ms. *)
Definition usePopup_setPopup (popupSpec : option PopupSpec) : Prog unit :=
  act (SetPopup popupSpec);; act (SetTimeout ClearPopup 4000).

(** The result of a [useSWR] call. *)
Record Swr (A : Type) : Type := {
  data : option A;
  isLoading : bool;
  error : bool;
}.
Arguments data {A} _.
Arguments isLoading {A} _.
Arguments error {A} _.

Definition loaded {A} (x : A) : Swr A :=
  {| data := Some x; isLoading := false; error := false |}.
End Lib.

(** ** What a page presents *)

Module View.
Import Popup Eff.

(** The sections of a rendered page, each with the handlers it is given.
    Static text is left out except where a section consists of it. *)
Inductive Element : Type :=
| LoadingAnimation (text : string)
| Div (text : string)
| PopupBox (p : PopupSpec)
| ExistingCredential (token : option Js.Value) (onDelete : option (Prog unit))
| CredentialForm (field : string) (onSubmit : bool -> Prog unit)
| ConnectorsTable (rows : list ConnectorIndexingStatus.t)
    (liveCredential : option Credential.t)
    (onUpdate : Prog unit) (onCredentialLink : Z -> Prog unit)
| ConnectorForm (source inputType : string) (refreshFreq : Z)
    (onSubmit : bool -> option Connector.t -> Prog unit)
| Notice (text : string)
| AppCredentialUpload (clientId : option string)
    (onClick : option string -> Prog unit)
| StatusRow (s : ConnectorIndexingStatus.t) (hasCredentialsIssue : bool)
| Button (label : string) (onClick : Prog unit).

(** The sections through which an operator creates a connector: a
    [ConnectorForm], and the Google Drive page's "Add" button. *)
Definition creates_connector (e : Element) : bool :=
  match e with
  | ConnectorForm _ _ _ _ => true
  | Button label _ => String.eqb label "Add"
  | _ => false
  end.

Definition offers_connector_creation (page : list Element) : bool :=
  existsb creates_connector page.
End View.

(** ** The Notion page *)

Module NotionPage.
Import Http Popup Eff Lib View.

Definition notionConnectorIndexingStatuses
    (connectorIndexingStatuses : list ConnectorIndexingStatus.t)
  : list ConnectorIndexingStatus.t :=
  filter (fun s => Connector.source (ConnectorIndexingStatus.connector s) = "notion")
    connectorIndexingStatuses.

Definition notionCredential (credentialsData : list Credential.t)
  : option Credential.t :=
  head (filter (fun c => Credential.has_marker "notion_integration_token" c = true)
          credentialsData).

(** The trash button next to the existing integration token. *)
Definition credentialDelete_onClick
    (connectorIndexingStatuses : list ConnectorIndexingStatus.t)
    (notionCredential : Credential.t) : Prog unit :=
  if (0 <? length (notionConnectorIndexingStatuses connectorIndexingStatuses))%nat
  then
    usePopup_setPopup
      (Some {| type := Popup.error;
               message := "Must delete all connectors before deleting credentials" |})
  else
    _ ← deleteCredential (Credential.id notionCredential);
    act (Mutate "/api/manage/credential").

Definition credentialForm_onSubmit (isSuccess : bool) : Prog unit :=
  if isSuccess then
    act (Mutate "/api/manage/credential");;
    act (Mutate "/api/manage/admin/connector/indexing-status")
  else mret tt.

Definition onCredentialLink (notionCredential : option Credential.t)
    (connectorId : Z) : Prog unit :=
  match notionCredential with
  | Some c =>
      _ ← linkCredential connectorId (Credential.id c);
      act (Mutate "/api/manage/admin/connector/indexing-status")
  | None => mret tt
  end.

Definition connectorForm_onSubmit (notionCredential : option Credential.t)
    (isSuccess : bool) (responseJson : option Connector.t) : Prog unit :=
  match isSuccess, responseJson with
  | true, Some connector =>
      credentialId ← get_id notionCredential;
      _ ← linkCredential (Connector.id connector) credentialId;
      act (Mutate "/api/manage/admin/connector/indexing-status")
  | _, _ => mret tt
  end.

Definition page (popup : option PopupSpec)
    (connectorIndexingStatuses : list ConnectorIndexingStatus.t)
    (credentialsData : list Credential.t) : list Element :=
  let statuses := notionConnectorIndexingStatuses connectorIndexingStatuses in
  let credential := notionCredential credentialsData in
  match popup with Some p => [PopupBox p] | None => [] end
  ++ match credential with
     | Some c =>
         [ExistingCredential (Credential.token "notion_integration_token" c)
            (Some (credentialDelete_onClick connectorIndexingStatuses c))]
     | None => [CredentialForm "notion_integration_token" credentialForm_onSubmit]
     end
  ++ (if (0 <? length statuses)%nat
      then [ConnectorsTable statuses credential
              (act (Mutate "/api/manage/admin/connector/indexing-status"))
              (onCredentialLink credential)]
      else [])
  ++ (if bool_decide (is_Some credential) && (length statuses =? 0)%nat
      then [ConnectorForm "notion" "poll" (10 * 60)
              (connectorForm_onSubmit credential)]
      else [])
  ++ (if bool_decide (is_Some credential) then []
      else [Notice "Please provide your integration details in Step 1 first!"]).

Definition Main (popup : option PopupSpec)
    (statuses : Swr (list ConnectorIndexingStatus.t))
    (credentials : Swr (list Credential.t)) : list Element :=
  if (negb (bool_decide (is_Some (data statuses))) && isLoading statuses)
     || (negb (bool_decide (is_Some (data credentials))) && isLoading credentials)
  then [LoadingAnimation "Loading"]
  else
    match error statuses, data statuses with
    | false, Some connectorIndexingStatuses =>
        match error credentials, data credentials with
        | false, Some credentialsData =>
            page popup connectorIndexingStatuses credentialsData
        | _, _ => [Div "Failed to load credentials"]
        end
    | _, _ => [Div "Failed to load connectors"]
    end.
End NotionPage.

(** ** The Slack page *)

Module SlackPage.
Import Http Popup Eff Lib View.

Definition slackConnectorIndexingStatuses
    (connectorIndexingStatuses : list ConnectorIndexingStatus.t)
  : list ConnectorIndexingStatus.t :=
  filter (fun s => Connector.source (ConnectorIndexingStatus.connector s) = "slack")
    connectorIndexingStatuses.

Definition slackCredential (credentialsData : list Credential.t)
  : option Credential.t :=
  head (filter (fun c => Credential.has_marker "slack_bot_token" c = true)
          credentialsData).

(** The trash button next to the existing bot token. *)
Definition credentialDelete_onClick (slackCredential : Credential.t) : Prog unit :=
  _ ← deleteCredential (Credential.id slackCredential);
  act (Mutate "/api/manage/credential").

Definition credentialForm_onSubmit (isSuccess : bool) : Prog unit :=
  if isSuccess then act (Mutate "/api/manage/credential") else mret tt.

Definition onCredentialLink (slackCredential : option Credential.t)
    (connectorId : Z) : Prog unit :=
  match slackCredential with
  | Some c =>
      _ ← linkCredential connectorId (Credential.id c);
      act (Mutate "/api/manage/admin/connector/indexing-status")
  | None => mret tt
  end.

Definition connectorForm_onSubmit (slackCredential : option Credential.t)
    (isSuccess : bool) (responseJson : option Connector.t) : Prog unit :=
  match isSuccess, responseJson with
  | true, Some connector =>
      credentialId ← get_id slackCredential;
      _ ← linkCredential (Connector.id connector) credentialId;
      act (Mutate "/api/manage/admin/connector/indexing-status")
  | _, _ => mret tt
  end.

Definition page
    (connectorIndexingStatuses : list ConnectorIndexingStatus.t)
    (credentialsData : list Credential.t) : list Element :=
  let statuses := slackConnectorIndexingStatuses connectorIndexingStatuses in
  let credential := slackCredential credentialsData in
  match credential with
  | Some c =>
      [ExistingCredential (Credential.token "slack_bot_token" c)
         (Some (credentialDelete_onClick c))]
  | None => [CredentialForm "slack_bot_token" credentialForm_onSubmit]
  end
  ++ (if (0 <? length statuses)%nat
      then [ConnectorsTable statuses credential
              (act (Mutate "/api/manage/admin/connector/indexing-status"))
              (onCredentialLink credential)]
      else [])
  ++ [ConnectorForm "slack" "poll" (10 * 60) (connectorForm_onSubmit credential)].

Definition MainSection
    (statuses : Swr (list ConnectorIndexingStatus.t))
    (credentials : Swr (list Credential.t)) : list Element :=
  if (negb (bool_decide (is_Some (data statuses))) && isLoading statuses)
     || (negb (bool_decide (is_Some (data credentials))) && isLoading credentials)
  then [LoadingAnimation "Loading"]
  else
    match error statuses, data statuses with
    | false, Some connectorIndexingStatuses =>
        match error credentials, data credentials with
        | false, Some credentialsData =>
            page connectorIndexingStatuses credentialsData
        | _, _ => [Div "Failed to load credentials"]
        end
    | _, _ => [Div "Failed to load connectors"]
    end.
End SlackPage.

(** ** The Google Drive page *)

Module GoogleDrivePage.
Import Http Popup Eff Lib View.

Definition setPopupWithExpiration (popupSpec : option PopupSpec) : Prog unit :=
  act (SetPopup popupSpec);;
  act (SetTimeout ClearPopup 4000).

(** The Upload button of [AppCredentialUpload]. *)
Definition appCredentialUpload_onClick
    (setPopup : option PopupSpec -> Prog unit)
    (appCredentialJsonStr : option string) : Prog unit :=
  response ← fetch {| method := PUT;
                      url := "/api/admin/connector/google-drive/app-credential";
                      headers := json_headers;
                      body := match appCredentialJsonStr with
                              | Some s => RawBody s
                              | None => NoBody
                              end |};
  if ok response then
    setPopup (Some {| message := "Successfully uploaded app credentials";
                      type := success |})
  else
    setPopup (Some {| message := "Failed to upload app credentials - "
                                 +:+ pretty (status response);
                      type := Popup.error |}).

(** The [setPopup] prop that [Main] gives to [AppCredentialUpload]. *)
Definition upload_setPopup (popup : option PopupSpec) : Prog unit :=
  act (Mutate "/api/admin/connector/google-drive/app-credential");;
  setPopupWithExpiration popup.

(** The "Authenticate with Google Drive" button. *)
Definition authenticate_onClick : Prog unit :=
  credentialCreationResponse ←
    fetch {| method := POST; url := "/api/admin/credential";
             headers := json_headers;
             body := JsonBody [("public_doc", Js.Bool true);
                               ("credential_json", Js.Composite)] |};
  if negb (ok credentialCreationResponse) then
    setPopupWithExpiration
      (Some {| message := "Failed to create credential - "
                          +:+ pretty (status credentialCreationResponse);
               type := Popup.error |})
  else
    credential ← response_json credentialCreationResponse;
    authorizationUrlResponse ←
      fetch {| method := GET;
               url := "/api/admin/connector/google-drive/authorize/"
                      +:+ Js.to_string (credential !! "id");
               headers := []; body := NoBody |};
    if negb (ok authorizationUrlResponse) then
      setPopupWithExpiration
        (Some {| message := "Failed to create credential - "
                            +:+ pretty (status authorizationUrlResponse);
                 type := Popup.error |})
    else
      authorizationUrlJson ← response_json authorizationUrlResponse;
      act (RouterPush (authorizationUrlJson !! "auth_url")).

(** The "Delete Connector" button; the callback of [then] runs whenever
    the call resolves. *)
Definition deleteConnector_onClick
    (googleDriveConnectorIndexingStatus : ConnectorIndexingStatus.t) : Prog unit :=
  _ ← deleteConnector
        (Connector.id
           (ConnectorIndexingStatus.connector googleDriveConnectorIndexingStatus));
  setPopupWithExpiration
    (Some {| message := "Successfully deleted connector!"; type := success |});;
  act (Mutate "/api/admin/connector/indexing-status").

Definition connectorBase : list (string * Js.Value) :=
  [("name", Js.Str "GoogleDriveConnector");
   ("input_type", Js.Str "load_state");
   ("source", Js.Str "google_drive");
   ("connector_specific_config", Js.Composite);
   ("refresh_freq", Js.Num (60 * 10));
   ("disabled", Js.Bool false)].

(** The "Add" button. *)
Definition add_onClick (googleDriveCredential : option Credential.t) : Prog unit :=
  connectorCreationResponse ←
    fetch {| method := POST; url := "/api/admin/connector";
             headers := json_headers; body := JsonBody connectorBase |};
  if negb (ok connectorCreationResponse) then
    setPopupWithExpiration
      (Some {| message := "Failed to create connector - "
                          +:+ pretty (status connectorCreationResponse);
               type := Popup.error |})
  else
    connector ← response_json connectorCreationResponse;
    credentialId ← get_id googleDriveCredential;
    credentialLinkResponse ←
      fetch {| method := PUT;
               url := "/api/admin/connector/" +:+ Js.to_string (connector !! "id")
                      +:+ "/credential/" +:+ pretty credentialId;
               headers := json_headers; body := NoBody |};
    if negb (ok credentialLinkResponse) then
      setPopupWithExpiration
        (Some {| message := "Failed to link connector to credential - "
                            +:+ pretty (status credentialLinkResponse);
                 type := Popup.error |})
    else
      setPopupWithExpiration
        (Some {| message := "Successfully created connector!"; type := success |});;
      act (Mutate "/api/admin/connector/indexing-status").

Definition googleDriveConnectorIndexingStatuses
    (connectorIndexingStatuses : list ConnectorIndexingStatus.t)
  : list ConnectorIndexingStatus.t :=
  filter (fun s => Connector.source (ConnectorIndexingStatus.connector s) = "google_drive")
    connectorIndexingStatuses.

Definition googleDriveCredential (credentialsData : list Credential.t)
  : option Credential.t :=
  head (filter (fun c => Credential.has_marker "google_drive_tokens" c = true)
          credentialsData).

Definition page (popup : option PopupSpec) (client_id : option string)
    (connectorIndexingStatuses : list ConnectorIndexingStatus.t)
    (credentialsData : list Credential.t) : list Element :=
  let credential := googleDriveCredential credentialsData in
  match popup with Some p => [PopupBox p] | None => [] end
  ++ [AppCredentialUpload
        (match client_id with
         | Some id => if String.eqb id "" then None else Some id
         | None => None
         end)
        (appCredentialUpload_onClick upload_setPopup)]
  ++ [Notice (if bool_decide (is_Some credential)
              then "Existing credential already setup!"
              else "Next, you must provide credentials via OAuth.")]
  ++ [Button "Authenticate with Google Drive" authenticate_onClick]
  ++ match head (googleDriveConnectorIndexingStatuses connectorIndexingStatuses) with
     | Some s =>
         [StatusRow s
            (length (Connector.credential_ids (ConnectorIndexingStatus.connector s))
             =? 0)%nat;
          Button "Delete Connector" (deleteConnector_onClick s)]
     | None => [Button "Add" (add_onClick credential)]
     end.

Definition Main (popup : option PopupSpec)
    (appCredential : Swr string)
    (statuses : Swr (list ConnectorIndexingStatus.t))
    (credentials : Swr (list Credential.t)) : list Element :=
  if isLoading credentials || isLoading appCredential || isLoading statuses
  then [LoadingAnimation ""]
  else
    match error credentials, data credentials with
    | false, Some credentialsData =>
        match error statuses, data statuses with
        | false, Some connectorIndexingStatuses =>
            if error appCredential
            then [Div "Error loading Google Drive app credentials. Contact an administrator."]
            else page popup (data appCredential)
                   connectorIndexingStatuses credentialsData
        | _, _ => [Div "Failed to load connectors."]
        end
    | _, _ => [Div "Failed to load credentials."]
    end.
End GoogleDrivePage.

(** ** The Slack bot configuration page *)

Module BotPage.
Import Http Popup Eff Lib View.

Definition numToDisplay : Z := 50.

(** The comparator handed to [sort]. *)
Definition compare_id (a b : SlackBotConfig.t) : Z :=
  if SlackBotConfig.id a <? SlackBotConfig.id b then -1
  else if SlackBotConfig.id a >? SlackBotConfig.id b then 1
  else 0.

Definition sorted (slackBotConfigs : list SlackBotConfig.t) : list SlackBotConfig.t :=
  Js.sort compare_id slackBotConfigs.

(** The double quote of the success message. *)
Definition dquote : string := String (Ascii.ascii_of_nat 34) EmptyString.

(** The handler of a row's trash icon. *)
Definition delete_onClick (setPopup : option PopupSpec -> Prog unit)
    (refresh : Prog unit) (slackBotConfig : SlackBotConfig.t) : Prog unit :=
  response ← deleteSlackBotConfig (SlackBotConfig.id slackBotConfig);
  (if ok response then
     setPopup (Some {| message := "Slack bot config " +:+ dquote
                                  +:+ pretty (SlackBotConfig.id slackBotConfig)
                                  +:+ dquote +:+ " deleted";
                       type := success |})
   else
     let errorMsg := text response in
     setPopup (Some {| message := "Failed to delete Slack bot config - " +:+ errorMsg;
                       type := Popup.error |}));;
  refresh.

Record Row : Type := {
  edit_href : string;
  channels : string;
  document_sets : string;
  team_members : string;
  answer_validity_check_enabled : bool;
  question_mark_only : bool;
  respond_tag_only : bool;
  delete : Prog unit;
}.

Definition includes_filter (c : SlackBotConfig.t) (f : string) : bool :=
  bool_decide
    (f ∈ default [] (SlackBotConfig.answer_filters (SlackBotConfig.channel_config c))).

Definition row (setPopup : option PopupSpec -> Prog unit) (refresh : Prog unit)
    (slackBotConfig : SlackBotConfig.t) : Row :=
  let cc := SlackBotConfig.channel_config slackBotConfig in
  {| edit_href := "/admin/bot/" +:+ pretty (SlackBotConfig.id slackBotConfig);
     channels :=
       String.concat ", "
         (map (fun channel_name => "#" +:+ channel_name)
            (SlackBotConfig.channel_names cc));
     document_sets :=
       String.concat ", "
         (map SlackBotConfig.ds_name (SlackBotConfig.document_sets slackBotConfig));
     team_members :=
       String.concat ", " (default [] (SlackBotConfig.respond_team_member_list cc));
     answer_validity_check_enabled :=
       includes_filter slackBotConfig "well_answered_postfilter";
     question_mark_only := includes_filter slackBotConfig "questionmark_prefilter";
     respond_tag_only := default false (SlackBotConfig.respond_tag_only cc);
     delete := delete_onClick setPopup refresh slackBotConfig |}.

(** The configs shown on a page: the slice of the sorted array. *)
Definition pageConfigs (page : Z) (slackBotConfigs : list SlackBotConfig.t)
  : list SlackBotConfig.t :=
  Js.slice ((page - 1) * numToDisplay) (page * numToDisplay)
    (sorted slackBotConfigs).

Definition totalPages (slackBotConfigs : list SlackBotConfig.t) : Z :=
  Js.ceil_div (Z.of_nat (length (sorted slackBotConfigs))) numToDisplay.

Record Table : Type := {
  data : list Row;
  pageSelector_totalPages : Z;
  pageSelector_currentPage : Z;
}.

Definition SlackBotConfigsTable (page : Z)
    (slackBotConfigs : list SlackBotConfig.t)
    (refresh : Prog unit) (setPopup : option PopupSpec -> Prog unit) : Table :=
  {| data := map (row setPopup refresh) (pageConfigs page slackBotConfigs);
     pageSelector_totalPages := totalPages slackBotConfigs;
     pageSelector_currentPage := page |}.

(** [refreshSlackBotConfigs], as [Main] passes it down. *)
Definition refresh : Prog unit := act Refresh.
End BotPage.

(** ** Credential selection, across the three pages *)

Inductive SourceType : Type := Slack | Notion | GoogleDrive.

Definition markerKey (S : SourceType) : string :=
  match S with
  | Slack => "slack_bot_token"
  | Notion => "notion_integration_token"
  | GoogleDrive => "google_drive_tokens"
  end.

Definition selectCredentialForSource (C : list Credential.t) (S : SourceType)
  : option Credential.t :=
  match S with
  | Slack => SlackPage.slackCredential C
  | Notion => NotionPage.notionCredential C
  | GoogleDrive => GoogleDrivePage.googleDriveCredential C
  end.

(** ** The hover popup *)

Module HoverPopup.
Record Props : Type := {
  mainContent : string;
  popupContent : string;
  classNameModifications : option string;
  direction : option string;
}.

(** The [switch] over [direction], whose default is "bottom"; any other
    value leaves [popupDirectionClass] undefined. *)
Definition popupDirectionClass (p : Props) : option string :=
  let direction := default "bottom" (direction p) in
  if String.eqb direction "left" then
    Some "top-0 left-0 transform translate-x-[-110%]"
  else if String.eqb direction "bottom" then Some "top-0 left-0 mt-8"
  else None.

(** The class of the popup box; [classNameModifications || ""] reads an
    absent or empty modification as the empty string. *)
Definition className (p : Props) : string :=
  "absolute bg-gray-700 px-3 py-2 rounded shadow-lg z-30 "
  +:+ default "" (classNameModifications p)
  +:+ " " +:+ default "undefined" (popupDirectionClass p).

Inductive MouseEvent : Type := MouseEnter | MouseLeave.

#[global] Instance MouseEvent_eq_dec : EqDecision MouseEvent.
Proof. solve_decision. Defined.

(** The component's state, and what it has written to the console. *)
Record State : Type := { hovered : bool; console : list string }.

Definition initial : State := {| hovered := false; console := [] |}.

Definition handle (s : State) (e : MouseEvent) : State :=
  match e with
  | MouseEnter => {| hovered := true; console := console s ++ ["HIII"] |}
  | MouseLeave => {| hovered := false; console := console s |}
  end.

Definition after (es : list MouseEvent) : State := foldl handle initial es.

Record Rendered : Type := {
  popupBox : option (string * string);
  main : string;
}.

Definition render (p : Props) (s : State) : Rendered :=
  {| popupBox := if hovered s then Some (className p, popupContent p) else None;
     main := mainContent p |}.
End HoverPopup.

(** ** Selecting sources in the filter list *)

Module Selector.
(** A source object.  [includes] compares objects by identity, which is
    [ref] here: two records are the same object when they are equal, [ref]
    included. *)
Record Source : Type := {
  ref : nat;
  displayName : string;
  internalName : string;
}.

#[global] Instance Source_eq_dec : EqDecision Source.
Proof. solve_decision. Defined.

Definition includes (l : list Source) (source : Source) : bool :=
  bool_decide (source ∈ l).

(** The updater that [handleSelect] gives to [setSelectedSources]. *)
Definition handleSelect (source : Source) (prev : list Source) : list Source :=
  if includes prev source then
    filter (fun s => internalName s <> internalName source) prev
  else prev ++ [source].

End Selector.

(** ** The Slack bot page as a whole *)

Module BotMain.
Import Lib.

Record SlackBotTokens : Type := { bot_token : string; app_token : string }.

Inductive Element : Type :=
| ThreeDotsLoader
| ErrorDiv
| PopupBox (p : Popup.PopupSpec)
| Intro
| SlackBotTokensForm (existingTokens : option SlackBotTokens)
| TokensSaved
| ToggleButton (label : string)
| NewConfigurationLink
| ConfigsTable (slackBotConfigs : list SlackBotConfig.t).

(** The button that opens and closes the token form: the new state, and
    the old one written to the console. *)
Definition toggle_onClick (slackBotTokensModalIsOpen : bool) : bool * bool :=
  (negb slackBotTokensModalIsOpen, slackBotTokensModalIsOpen).

Definition Main (slackBotTokensModalIsOpen : bool)
    (popup : option Popup.PopupSpec)
    (configs : Swr (list SlackBotConfig.t))
    (slackBotTokens : option SlackBotTokens) : list Element :=
  if isLoading configs then [ThreeDotsLoader]
  else
    match error configs, data configs with
    | false, Some slackBotConfigs =>
        match popup with Some p => [PopupBox p] | None => [] end
        ++ [Intro]
        ++ match slackBotTokens with
           | None => [SlackBotTokensForm None]
           | Some tokens =>
               [TokensSaved;
                ToggleButton (if slackBotTokensModalIsOpen then "Hide"
                              else "Edit Tokens")]
               ++ (if slackBotTokensModalIsOpen
                   then [SlackBotTokensForm (Some tokens)] else [])
           end
        ++ match slackBotTokens with
           | None => []
           | Some _ =>
               [NewConfigurationLink]
               ++ (if (0 <? length slackBotConfigs)%nat
                   then [ConfigsTable slackBotConfigs] else [])
           end
    | _, _ => [ErrorDiv]
    end.

Definition is_table (e : Element) : bool :=
  match e with ConfigsTable _ => true | _ => false end.

Definition is_tokens_form (e : Element) : bool :=
  match e with SlackBotTokensForm _ => true | _ => false end.

Definition is_new_link (e : Element) : bool :=
  match e with NewConfigurationLink => true | _ => false end.
End BotMain.

(** ** The admin sidebar *)

Module AdminSidebar.
Record Settings : Type := { default_page : string }.
Record EnterpriseSettings : Type := { application_name : option string }.
Record CombinedSettings : Type := {
  settings : option Settings;
  enterpriseSettings : option EnterpriseSettings;
}.

Record Item : Type := { name : string; link : string }.
Record Collection : Type := { collection_name : string; items : list Item }.

Inductive Node : Type :=
| HomeLink (href : string) (title : string) (poweredBy : bool)
| BackToDanswer (href : string)
| Heading (name : string)
| ItemLink (key : string) (href : string) (name : string).

(** [enterpriseSettings && enterpriseSettings.application_name], read as a
    condition: the name when it is there and not empty. *)
Definition customName (c : CombinedSettings) : option string :=
  match enterpriseSettings c with
  | Some e =>
      match application_name e with
      | Some n => if String.eqb n "" then None else Some n
      | None => None
      end
  | None => None
  end.

Definition homeHref (c : CombinedSettings) : string :=
  match settings c with
  | Some s => if String.eqb (default_page s) "chat" then "/chat" else "/search"
  | None => "/search"
  end.

Definition collectionNodes (c : Collection) : list Node :=
  Heading (collection_name c)
  :: map (fun item => ItemLink (link item) (link item) (name item)) (items c).

(** The sidebar, given the constant
    NEXT_PUBLIC_DO_NOT_USE_TOGGLE_OFF_DANSWER_POWERED of [lib/constants];
    without settings in context it renders nothing. *)
Definition AdminSidebar (toggle_off_danswer_powered : bool)
    (combinedSettings : option CombinedSettings)
    (collections : list Collection) : option (list Node) :=
  match combinedSettings with
  | None => None
  | Some c =>
      Some
        (match customName c with
         | Some n => HomeLink (homeHref c) n (negb toggle_off_danswer_powered)
         | None => HomeLink (homeHref c) "Danswer" false
         end
         :: BackToDanswer "/chat"
         :: concat (map collectionNodes collections))
  end.

Definition itemLinks (nodes : list Node) : list (string * string) :=
  omap (fun n => match n with ItemLink _ href name => Some (href, name) | _ => None end)
    nodes.
End AdminSidebar.

(** ** Vocabulary of the properties *)

Section vocabulary.
Import Http Popup Eff.

(** The reading of "contains the marker key" by the letter: the key is
  present in the payload, whatever its value. *)
Definition contains_key (S : SourceType) (c : Credential.t) : Prop :=
match Credential.credential_json c with
| None => False
| Some json => is_Some (json !! markerKey S)
end.

#[global] Instance contains_key_dec S c : Decision (contains_key S c).
Proof. unfold contains_key. destruct (Credential.credential_json c); apply _. Defined.

Definition first_containing_key (C : list Credential.t) (S : SourceType)
: option Credential.t :=
head (filter (contains_key S) C).

Definition cred_empty_token : Credential.t :=
{| Credential.id := 1;
   Credential.credential_json := Some {[ "slack_bot_token" := Js.Str "" ]};
   Credential.public_doc := false |}.

Definition cred_real_token : Credential.t :=
{| Credential.id := 2;
   Credential.credential_json := Some {[ "slack_bot_token" := Js.Str "xoxb-x" ]};
   Credential.public_doc := false |}.

Definition guard_popup : Popup.PopupSpec :=
{| Popup.message := "Must delete all connectors before deleting credentials";
   Popup.type := Popup.error |}.

(** A credential is linked when some connector lists its id. *)
Definition linked (c : Credential.t) (statuses : list ConnectorIndexingStatus.t) : Prop :=
exists s, s ∈ statuses
  /\ Credential.id c ∈ Connector.credential_ids (ConnectorIndexingStatus.connector s).

Definition make_connector (id : Z) (source : string) (credential_ids : list Z)
: ConnectorIndexingStatus.t :=
{| ConnectorIndexingStatus.connector :=
     {| Connector.id := id; Connector.name := "connector";
        Connector.source := source; Connector.input_type := "poll";
        Connector.connector_specific_config := ∅;
        Connector.refresh_freq := 600; Connector.disabled := false;
        Connector.credential_ids := credential_ids |};
   ConnectorIndexingStatus.last_status := None;
   ConnectorIndexingStatus.last_success := None |}.

Definition make_credential (id : Z) (key token : string) : Credential.t :=
{| Credential.id := id;
   Credential.credential_json := Some {[ key := Js.Str token ]};
   Credential.public_doc := false |}.

Definition backend_always (status : N) (text : string) : Eff.Backend :=
fun _ _ => {| Http.status := status; Http.text := text; Http.json := Some ∅ |}.

Definition undefined_id : Js.Error :=
Js.TypeError "Cannot read properties of undefined (reading 'id')".

Definition id_le (a b : SlackBotConfig.t) : Prop :=
SlackBotConfig.id a <= SlackBotConfig.id b.

Definition make_config (id : Z) : SlackBotConfig.t :=
{| SlackBotConfig.id := id;
   SlackBotConfig.channel_config :=
     {| SlackBotConfig.channel_names := ["general"];
        SlackBotConfig.respond_team_member_list := None;
        SlackBotConfig.answer_filters := None;
        SlackBotConfig.respond_tag_only := None |};
   SlackBotConfig.document_sets := [] |}.

Definition config_in (id : Z) (channel : string) : SlackBotConfig.t :=
  {| SlackBotConfig.id := id;
     SlackBotConfig.channel_config :=
       {| SlackBotConfig.channel_names := [channel];
          SlackBotConfig.respond_team_member_list := None;
          SlackBotConfig.answer_filters := None;
          SlackBotConfig.respond_tag_only := None |};
     SlackBotConfig.document_sets := [] |}.

(** Four configs, two of them with id 3. *)
Definition configs_with_tie : list SlackBotConfig.t :=
  [config_in 3 "a"; config_in 1 "b"; config_in 3 "c"; config_in 2 "d"].

(** 120 configs with ids 120 down to 1. *)
Definition configs_120 : list SlackBotConfig.t :=
map (fun n => make_config (120 - Z.of_nat n)) (seq 0 120).

(** The error notice on screen names the status of the response. *)
Definition shows_status (resp : Response) (w : World) : Prop :=
exists msg,
  popup w = Some {| message := msg; type := Popup.error |}
  /\ Js.includes msg (pretty (status resp)) = true.

(** Every failed call among the new events of a run is named on screen. *)
Definition failures_shown {A} (b : Backend) (p : Prog A) (w : World) : Prop :=
forall evs req resp,
  trace (run b p w).2 = trace w ++ evs ->
  Called req resp ∈ evs -> ok resp = false ->
  shows_status resp (run b p w).2.

(** No cache is signalled when a call among the new events has failed. *)
Definition failures_keep_cache {A} (b : Backend) (p : Prog A) (w : World) : Prop :=
forall evs req resp,
  trace (run b p w).2 = trace w ++ evs ->
  Called req resp ∈ evs -> ok resp = false ->
  forall key, (Did (Mutate key) ∉ evs) /\ (Did Refresh ∉ evs).

(** The backend's answer 503 to the creation of the Google Drive
    connector. *)
Definition create_connector_request : Request :=
  {| method := POST; url := "/api/admin/connector";
     headers := json_headers;
     body := JsonBody GoogleDrivePage.connectorBase |}.

Definition response_503 : Response :=
  {| status := 503; text := ""; json := Some ∅ |}.

Definition bot_delete_5 : Eff.Prog unit :=
BotPage.delete_onClick Lib.usePopup_setPopup BotPage.refresh (make_config 5).

(** In this state the popup, if any, has a timer that clears it no later
  than 4000 ms from now. *)
Definition expiring (w : World) : Prop :=
popup w = None
\/ exists d, (d, ClearPopup) ∈ timers w /\ d <= clock w + 4000.

(** Handlers that set the popup only together with its timer. *)
Inductive Expiring {A : Type} : Prog A -> Prop :=
| Expiring_ret (a : A) : Expiring (Ret a)
| Expiring_throw (e : Js.Error) : Expiring (Throw e)
| Expiring_fetch (req : Request) (k : Response -> Prog A) :
  (forall r, Expiring (k r)) -> Expiring (Fetch req k)
| Expiring_popup (p : option PopupSpec) (k : Prog A) :
  Expiring k -> Expiring (Do (SetPopup p) (Do (SetTimeout ClearPopup 4000) k))
| Expiring_mutate (key : string) (k : Prog A) : Expiring k -> Expiring (Do (Mutate key) k)
| Expiring_refresh (k : Prog A) : Expiring k -> Expiring (Do Refresh k)
| Expiring_push (u : option Js.Value) (k : Prog A) :
  Expiring k -> Expiring (Do (RouterPush u) k).

End vocabulary.

(** ** Vocabulary of the further properties *)

Section more_vocabulary.
Import Http Popup Eff.

(** The request that creates the Google Drive credential. *)
Definition create_credential_request : Request :=
  {| method := POST; url := "/api/admin/credential";
     headers := json_headers;
     body := JsonBody [("public_doc", Js.Bool true);
                       ("credential_json", Js.Composite)] |}.

Definition upload_request (appCredentialJsonStr : option string) : Request :=
  {| method := PUT;
     url := "/api/admin/connector/google-drive/app-credential";
     headers := json_headers;
     body := match appCredentialJsonStr with
             | Some s => RawBody s
             | None => NoBody
             end |}.

Definition created_notice : PopupSpec :=
  {| message := "Successfully created connector!"; type := success |}.

Definition indexing_status_key : string := "/api/admin/connector/indexing-status".

Definition app_credential_key : string :=
  "/api/admin/connector/google-drive/app-credential".

(** Kinds of sections of a connector page. *)
Definition is_connectors_table (e : View.Element) : bool :=
  match e with View.ConnectorsTable _ _ _ _ => true | _ => false end.

Definition is_credential_form (e : View.Element) : bool :=
  match e with View.CredentialForm _ _ => true | _ => false end.

Definition is_existing_credential (e : View.Element) : bool :=
  match e with View.ExistingCredential _ _ => true | _ => false end.

Definition is_notice (e : View.Element) : bool :=
  match e with View.Notice _ => true | _ => false end.

Definition has_button (label : string) (page : list View.Element) : bool :=
  existsb (fun e => match e with
                    | View.Button l _ => String.eqb l label
                    | _ => false
                    end) page.

(** The status rows of a page, each with its credentials flag. *)
Definition status_rows (page : list View.Element)
  : list (ConnectorIndexingStatus.t * bool) :=
  omap (fun e => match e with
                 | View.StatusRow s flag => Some (s, flag)
                 | _ => None
                 end) page.

Definition source_of (s : ConnectorIndexingStatus.t) : string :=
  Connector.source (ConnectorIndexingStatus.connector s).

(** The click handlers of the Google Drive page. *)
Inductive drive_handler : Prog unit -> Prop :=
| handler_upload (str : option string) :
    drive_handler
      (GoogleDrivePage.appCredentialUpload_onClick GoogleDrivePage.upload_setPopup str)
| handler_authenticate : drive_handler GoogleDrivePage.authenticate_onClick
| handler_add (c : option Credential.t) : drive_handler (GoogleDrivePage.add_onClick c)
| handler_delete (s : ConnectorIndexingStatus.t) :
    drive_handler (GoogleDrivePage.deleteConnector_onClick s).

(** The states the Google Drive page can be in: it starts with no popup
    and no timer; a click runs a handler, against whatever the backend
    answers; and between clicks time passes and due timers fire. *)
Inductive drive_reachable : World -> Prop :=
| reach_initial : drive_reachable initial
| reach_click (b : Backend) (p : Prog unit) (w : World) :
    drive_handler p -> drive_reachable w -> drive_reachable (run b p w).2
| reach_wait (dt : Z) (w : World) :
    0 <= dt -> drive_reachable w -> drive_reachable (advance dt w).

End more_vocabulary.

(** * Properties *)

Section head_filter.
Context {A : Type} (P : A -> Prop) `{!forall x, Decision (P x)}.

(** [l.filter(P)[0]] is the element at the least index that satisfies
    [P]. *)
Lemma head_filter_Some (l : list A) (x : A) :
  head (filter P l) = Some x ->
  exists i : nat, l !! i = Some x /\ P x
    /\ forall (j : nat) (y : A), (j < i)%nat -> l !! j = Some y -> ~ P y.
Proof.
  induction l as [|a l IH]; [done|].
  rewrite filter_cons. destruct (decide (P a)) as [Ha|Ha].
  - intros [= ->]. exists 0%nat. repeat split; [done|]. intros j y Hj. lia.
  - intros Hx. destruct (IH Hx) as (i & Hi & HP & Hmin).
    exists (S i). repeat split; [done..|].
    intros [|j] y Hj Hy; simpl in Hy.
    + by injection Hy as ->.
    + apply (Hmin j y); [lia|done].
Qed.

Lemma head_filter_None (l : list A) :
  head (filter P l) = None -> forall x, x ∈ l -> ~ P x.
Proof.
  intros Hnone x Hx HP.
  assert (x ∈ filter P l) as Hin by (apply list_elem_of_filter; done).
  destruct (filter P l); [by apply elem_of_nil in Hin | done].
Qed.
End head_filter.

(** ** Credential selection *)

(** C4, as stated, fails: with a first credential whose [slack_bot_token] is
    the empty string, the payload contains the marker key, yet the page
    selects the second credential. *)
Lemma selectCredentialForSource_skips_empty_marker :
  contains_key Slack cred_empty_token
  /\ first_containing_key [cred_empty_token; cred_real_token] Slack
     = Some cred_empty_token
  /\ selectCredentialForSource [cred_empty_token; cred_real_token] Slack
     = Some cred_real_token
  /\ cred_empty_token <> cred_real_token.
Proof.
  split; [|split; [|split]].
  - by eexists.
  - by vm_compute.
  - by vm_compute.
  - intros H. apply (f_equal Credential.id) in H. discriminate.
Qed.

(** C4, amended: [selectCredentialForSource C S] is the first element of
    [C], in the order given, whose [credential_json] holds a truthy value
    under the marker key of [S], and none when there is no such element. *)
Theorem selectCredentialForSource_first_truthy
    (C : list Credential.t) (S : SourceType) :
  match selectCredentialForSource C S with
  | Some c =>
      exists i : nat,
        C !! i = Some c
        /\ Credential.has_marker (markerKey S) c = true
        /\ forall (j : nat) (c' : Credential.t),
             (j < i)%nat -> C !! j = Some c' ->
             Credential.has_marker (markerKey S) c' = false
  | None =>
      forall c, c ∈ C -> Credential.has_marker (markerKey S) c = false
  end.
Proof.
  assert (selectCredentialForSource C S
          = head (filter (fun c => Credential.has_marker (markerKey S) c = true) C))
    as -> by (by destruct S).
  destruct (head _) as [c|] eqn:Hsel.
  - apply head_filter_Some in Hsel as (i & Hi & Hc & Hmin).
    exists i. repeat split; [done..|].
    intros j c' Hj Hc'. apply not_true_is_false. exact (Hmin j c' Hj Hc').
  - intros c Hc. apply not_true_is_false.
    exact (head_filter_None _ C Hsel c Hc).
Qed.

(** ** Traces *)

Section traces.
Import Http Popup Eff.

Lemma calls_app (t1 t2 : list Event) : calls (t1 ++ t2) = calls t1 ++ calls t2.
Proof. apply omap_app. Qed.

Lemma signals_app (t1 t2 : list Event) :
  signals (t1 ++ t2) = signals t1 ++ signals t2.
Proof. apply omap_app. Qed.

Lemma run_bind {A B} (b : Backend) (p : Prog A) (f : A -> Prog B) (w : World) :
  run b (p ≫= f) w =
  match run b p w with
  | (Returned a, w') => run b (f a) w'
  | (Threw e, w') => (Threw e, w')
  end.
Proof.
  revert w. induction p as [a|e|req k IH|a k IH]; intros w; simpl;
    first [done | apply IH].
Qed.

(** A handler only ever extends the trace. *)
Lemma run_trace_extends {A} (b : Backend) (p : Prog A) (w : World) :
  exists evs, trace (run b p w).2 = trace w ++ evs.
Proof.
  revert w. induction p as [a|e|req k IH|a k IH]; intros w; simpl.
  - exists []. by rewrite app_nil_r.
  - exists []. by rewrite app_nil_r.
  - destruct (IH (b (trace w) req) (record (Called req (b (trace w) req)) w))
      as [evs Hevs].
    exists (Called req (b (trace w) req) :: evs).
    rewrite Hevs. simpl. by rewrite <- app_assoc.
  - destruct (IH (perform a w)) as [evs Hevs].
    exists (Did a :: evs). rewrite Hevs.
    destruct a; simpl; by rewrite <- app_assoc.
Qed.
End traces.

(** ** Deleting a credential *)

Lemma notion_statuses_nonempty (statuses : list ConnectorIndexingStatus.t) :
  (0 <? length (NotionPage.notionConnectorIndexingStatuses statuses))%nat = true
  <-> exists s, s ∈ statuses
        /\ Connector.source (ConnectorIndexingStatus.connector s) = "notion".
Proof.
  unfold NotionPage.notionConnectorIndexingStatuses. rewrite Nat.ltb_lt. split.
  - intros Hlen. destruct (filter _ statuses) as [|s l] eqn:Hf; [simpl in Hlen; lia|].
    assert (s ∈ s :: l) as Hin by left.
    rewrite <- Hf in Hin. apply list_elem_of_filter in Hin as [Hsrc Hs]. by exists s.
  - intros (s & Hs & Hsrc).
    assert (s ∈ filter
              (fun s => Connector.source (ConnectorIndexingStatus.connector s) = "notion")
              statuses) as Hin by (by apply list_elem_of_filter).
    destruct (filter _ statuses); [by apply elem_of_nil in Hin | simpl; lia].
Qed.

(** C1, as stated, fails on the Notion page: a Notion connector that lists
    no credential leaves credential 7 unlinked, yet the delete handler stops
    at the guard and sends nothing, whatever the backend. *)
Lemma notion_guard_blocks_unlinked_credential :
  ~ linked (make_credential 7 "notion_integration_token" "secret")
      [make_connector 3 "notion" []]
  /\ (forall b : Eff.Backend,
        Eff.calls
          (Eff.trace
             (Eff.run b
                (NotionPage.credentialDelete_onClick
                   [make_connector 3 "notion" []]
                   (make_credential 7 "notion_integration_token" "secret"))
                Eff.initial).2)
        = []).
Proof.
  split.
  - intros (s & Hs & Hin). apply list_elem_of_singleton in Hs as ->.
    simpl in Hin. by apply elem_of_nil in Hin.
  - intros b. reflexivity.
Qed.

(** The Slack page's delete handler has no guard: credential 7, listed by
    Slack connector 3, is deleted all the same. *)
Lemma slack_delete_is_unguarded (b : Eff.Backend) :
  linked (make_credential 7 "slack_bot_token" "xoxb-x") [make_connector 3 "slack" [7]]
  /\ Eff.calls
       (Eff.trace
          (Eff.run b
             (SlackPage.credentialDelete_onClick
                (make_credential 7 "slack_bot_token" "xoxb-x"))
             Eff.initial).2)
     = [Lib.deleteCredential_request 7].
Proof.
  split; [|reflexivity].
  exists (make_connector 3 "slack" [7]). split; [left | simpl; left].
Qed.

(** C1, amended: on the Notion page, deleting the credential stops at the
    guard, with the popup "Must delete all connectors before deleting
    credentials" and no network call, whenever a Notion connector exists
    (whether or not it lists the credential); when no Notion connector
    exists it sends exactly one DELETE for the credential and then signals
    the credential cache. *)
Theorem notion_credentialDelete_guarded
    (b : Eff.Backend) (w : Eff.World)
    (statuses : list ConnectorIndexingStatus.t) (c : Credential.t) :
  let w' := (Eff.run b (NotionPage.credentialDelete_onClick statuses c) w).2 in
  ((exists s, s ∈ statuses
      /\ Connector.source (ConnectorIndexingStatus.connector s) = "notion") ->
   Eff.calls (Eff.trace w') = Eff.calls (Eff.trace w)
   /\ Eff.popup w' = Some guard_popup)
  /\ ((forall s, s ∈ statuses ->
         Connector.source (ConnectorIndexingStatus.connector s) <> "notion") ->
      Eff.calls (Eff.trace w')
      = Eff.calls (Eff.trace w) ++ [Lib.deleteCredential_request (Credential.id c)]
      /\ Eff.signals (Eff.trace w')
         = Eff.signals (Eff.trace w) ++ [Eff.Mutate "/api/manage/credential"]).
Proof.
  intros w'. subst w'. unfold NotionPage.credentialDelete_onClick.
  destruct (0 <? length _)%nat eqn:Hlen.
  - split.
    + intros _. simpl. rewrite !calls_app. simpl. by rewrite !app_nil_r.
    + intros Hnone. apply notion_statuses_nonempty in Hlen as (s & Hs & Hsrc).
      by destruct (Hnone s Hs).
  - split.
    + intros Hex. apply notion_statuses_nonempty in Hex. congruence.
    + intros _. simpl. rewrite !calls_app, !signals_app. simpl.
      by rewrite !app_nil_r.
Qed.

Lemma notion_credentialDelete_guarded_witness :
  (Eff.calls
     (Eff.trace
        (Eff.run (backend_always 200 "")
           (NotionPage.credentialDelete_onClick
              [make_connector 3 "notion" [7]]
              (make_credential 7 "notion_integration_token" "secret"))
           Eff.initial).2)
   = Eff.calls (Eff.trace Eff.initial)
   /\ Eff.popup
        (Eff.run (backend_always 200 "")
           (NotionPage.credentialDelete_onClick
              [make_connector 3 "notion" [7]]
              (make_credential 7 "notion_integration_token" "secret"))
           Eff.initial).2
      = Some guard_popup)
  /\ (Eff.calls
        (Eff.trace
           (Eff.run (backend_always 200 "")
              (NotionPage.credentialDelete_onClick
                 [make_connector 3 "slack" [7]]
                 (make_credential 7 "notion_integration_token" "secret"))
              Eff.initial).2)
      = Eff.calls (Eff.trace Eff.initial) ++ [Lib.deleteCredential_request 7]
      /\ Eff.signals
           (Eff.trace
              (Eff.run (backend_always 200 "")
                 (NotionPage.credentialDelete_onClick
                    [make_connector 3 "slack" [7]]
                    (make_credential 7 "notion_integration_token" "secret"))
                 Eff.initial).2)
         = Eff.signals (Eff.trace Eff.initial)
           ++ [Eff.Mutate "/api/manage/credential"]).
Proof.
  split.
  - apply (notion_credentialDelete_guarded (backend_always 200 "") Eff.initial
             [make_connector 3 "notion" [7]]
             (make_credential 7 "notion_integration_token" "secret")).
    exists (make_connector 3 "notion" [7]). split; [left | reflexivity].
  - apply (notion_credentialDelete_guarded (backend_always 200 "") Eff.initial
             [make_connector 3 "slack" [7]]
             (make_credential 7 "notion_integration_token" "secret")).
    intros s Hs. apply list_elem_of_singleton in Hs as ->. simpl. discriminate.
Defined.

(** ** Offering connector creation *)

(** The Notion page presents its connector form only below a selected
    credential. *)
Lemma notion_gates_connector_creation
    (popup : option Popup.PopupSpec)
    (statuses : Lib.Swr (list ConnectorIndexingStatus.t))
    (credentials : Lib.Swr (list Credential.t)) :
  (forall credentialsData,
     Lib.data credentials = Some credentialsData ->
     NotionPage.notionCredential credentialsData = None) ->
  View.offers_connector_creation (NotionPage.Main popup statuses credentials) = false.
Proof.
  intros Hnone. unfold NotionPage.Main.
  destruct (_ || _); [done|].
  destruct (Lib.error statuses), (Lib.data statuses) as [sts|]; try done.
  destruct (Lib.error credentials), (Lib.data credentials) as [creds|] eqn:Hc; try done.
  unfold NotionPage.page. rewrite (Hnone creds eq_refl).
  unfold View.offers_connector_creation. rewrite !existsb_app.
  destruct popup; simpl; by destruct (0 <? _)%nat.
Qed.

(** C2, on the code: the Slack page presents its "Connect to a New
    Workspace" form in every loaded state, and the Google Drive page its
    "Add" button whenever no Google Drive connector exists; neither looks at
    the selected credential, so both offer connector creation when the
    credential list is empty. *)
Theorem slack_offers_creation_without_credential :
  (forall statuses credentialsData,
     View.offers_connector_creation
       (SlackPage.MainSection (Lib.loaded statuses) (Lib.loaded credentialsData))
     = true)
  /\ SlackPage.slackCredential [] = None
  /\ View.offers_connector_creation
       (SlackPage.MainSection (Lib.loaded []) (Lib.loaded [])) = true
  /\ GoogleDrivePage.googleDriveCredential [] = None
  /\ (forall popup client_id,
        View.offers_connector_creation
          (GoogleDrivePage.Main popup (Lib.loaded client_id)
             (Lib.loaded []) (Lib.loaded []))
        = true).
Proof.
  assert (forall statuses credentialsData,
            View.offers_connector_creation
              (SlackPage.MainSection (Lib.loaded statuses) (Lib.loaded credentialsData))
            = true) as Hslack.
  { intros statuses credentialsData.
    change (SlackPage.MainSection (Lib.loaded statuses) (Lib.loaded credentialsData))
      with (SlackPage.page statuses credentialsData).
    unfold SlackPage.page, View.offers_connector_creation.
    rewrite !existsb_app. simpl. by rewrite !orb_true_r. }
  split; [exact Hslack|]. split; [done|]. split; [apply Hslack|]. split; [done|].
  intros popup client_id.
  change (GoogleDrivePage.Main popup (Lib.loaded client_id) (Lib.loaded []) (Lib.loaded []))
    with (GoogleDrivePage.page popup (Some client_id) [] []).
  unfold GoogleDrivePage.page, View.offers_connector_creation.
  rewrite !existsb_app. simpl. by rewrite !orb_true_r.
Qed.

(** ** Linking a credential to a connector *)

(** C3, on the code: the Slack page with no credential still presents the
    connector form, whose [onSubmit] reads [slackCredential.id] without a
    check: after a successful creation it throws a TypeError, where
    [onCredentialLink] of the same page checks first and returns. *)
Theorem slack_connectorForm_onSubmit_unchecked
    (b : Eff.Backend) (w : Eff.World) (connector : Connector.t) :
  SlackPage.page [] []
  = [View.CredentialForm "slack_bot_token" SlackPage.credentialForm_onSubmit;
     View.ConnectorForm "slack" "poll" 600 (SlackPage.connectorForm_onSubmit None)]
  /\ Eff.run b (SlackPage.connectorForm_onSubmit None true (Some connector)) w
     = (Eff.Threw undefined_id, w)
  /\ Eff.run b (SlackPage.onCredentialLink None (Connector.id connector)) w
     = (Eff.Returned tt, w).
Proof. done. Qed.

(** The Google Drive "Add" handler has the same gap: the connector is
    created, then reading the id of the absent credential throws. *)
Lemma googleDrive_add_onClick_unchecked (w : Eff.World) :
  let r := Eff.run (backend_always 200 "") (GoogleDrivePage.add_onClick None) w in
  r.1 = Eff.Threw undefined_id
  /\ Eff.calls (Eff.trace r.2)
     = Eff.calls (Eff.trace w)
       ++ [{| Http.method := Http.POST; Http.url := "/api/admin/connector";
              Http.headers := Http.json_headers;
              Http.body := Http.JsonBody GoogleDrivePage.connectorBase |}].
Proof.
  simpl. split; [done|]. rewrite calls_app. simpl. done.
Qed.

(** With a credential selected, the link request carries its id; with none,
    no handler of the Slack and Notion pages sends a request. *)
Lemma link_request_carries_selected_credential
    (b : Eff.Backend) (w : Eff.World) (c : Credential.t) (connector : Connector.t) :
  let link := Lib.linkCredential_request (Connector.id connector) (Credential.id c) in
  Eff.calls (Eff.trace (Eff.run b (SlackPage.onCredentialLink (Some c) (Connector.id connector)) w).2)
  = Eff.calls (Eff.trace w) ++ [link]
  /\ Eff.calls (Eff.trace (Eff.run b (SlackPage.connectorForm_onSubmit (Some c) true (Some connector)) w).2)
     = Eff.calls (Eff.trace w) ++ [link]
  /\ Eff.calls (Eff.trace (Eff.run b (NotionPage.onCredentialLink (Some c) (Connector.id connector)) w).2)
     = Eff.calls (Eff.trace w) ++ [link]
  /\ Eff.calls (Eff.trace (Eff.run b (NotionPage.connectorForm_onSubmit (Some c) true (Some connector)) w).2)
     = Eff.calls (Eff.trace w) ++ [link]
  /\ (Eff.run b (NotionPage.onCredentialLink None (Connector.id connector)) w).2 = w
  /\ (Eff.run b (NotionPage.connectorForm_onSubmit None true (Some connector)) w).2 = w
  /\ (Eff.run b (SlackPage.onCredentialLink None (Connector.id connector)) w).2 = w
  /\ (Eff.run b (SlackPage.connectorForm_onSubmit None true (Some connector)) w).2 = w.
Proof.
  simpl. rewrite !calls_app. simpl. by rewrite !app_nil_r.
Qed.

(** ** Sorting the bot configurations *)

Section sorting.
Import BotPage.

Lemma compare_id_le (a b : SlackBotConfig.t) :
  (compare_id a b <=? 0) = true <-> id_le a b.
Proof.
  unfold compare_id, id_le. rewrite Z.leb_le.
  destruct (_ <? _) eqn:Hlt; [apply Z.ltb_lt in Hlt; lia|].
  apply Z.ltb_ge in Hlt.
  destruct (_ >? _) eqn:Hgt; [rewrite Z.gtb_ltb in Hgt; apply Z.ltb_lt in Hgt; lia|].
  rewrite Z.gtb_ltb in Hgt. apply Z.ltb_ge in Hgt. lia.
Qed.

(** The comparator is a consistent one: it orders by id, totally. *)
Lemma compare_id_sign (a b : SlackBotConfig.t) :
  (compare_id a b < 0 <-> SlackBotConfig.id a < SlackBotConfig.id b)
  /\ (compare_id a b = 0 <-> SlackBotConfig.id a = SlackBotConfig.id b)
  /\ (compare_id a b > 0 <-> SlackBotConfig.id a > SlackBotConfig.id b).
Proof.
  unfold compare_id.
  destruct (_ <? _) eqn:Hlt; [apply Z.ltb_lt in Hlt; lia|].
  apply Z.ltb_ge in Hlt.
  destruct (_ >? _) eqn:Hgt; rewrite Z.gtb_ltb in Hgt;
    [apply Z.ltb_lt in Hgt | apply Z.ltb_ge in Hgt]; lia.
Qed.

Lemma sort_insert_perm (x : SlackBotConfig.t) (l : list SlackBotConfig.t) :
  Js.sort_insert compare_id x l ≡ₚ x :: l.
Proof.
  induction l as [|y l IH]; simpl; [done|].
  destruct (_ <=? 0); [done|]. rewrite IH. apply Permutation_swap.
Qed.

Lemma sorted_perm (l : list SlackBotConfig.t) : sorted l ≡ₚ l.
Proof.
  unfold sorted. induction l as [|x l IH]; simpl; [done|].
  by rewrite sort_insert_perm, IH.
Qed.

Lemma sort_insert_sorted (x : SlackBotConfig.t) (l : list SlackBotConfig.t) :
  StronglySorted id_le l -> StronglySorted id_le (Js.sort_insert compare_id x l).
Proof.
  induction 1 as [|y l Hl IH Hy]; simpl.
  - repeat constructor.
  - destruct (_ <=? 0) eqn:Hcmp.
    + apply compare_id_le in Hcmp. constructor; [by constructor|].
      constructor; [done|]. eapply Forall_impl; [exact Hy|].
      intros z Hz. unfold id_le in *. lia.
    + assert (id_le y x) as Hyx.
      { destruct (decide (SlackBotConfig.id x <= SlackBotConfig.id y)) as [Hle|Hle].
        - apply (compare_id_le x y) in Hle. congruence.
        - unfold id_le. lia. }
      constructor; [done|].
      rewrite sort_insert_perm. by constructor.
Qed.

Lemma sorted_StronglySorted (l : list SlackBotConfig.t) :
  StronglySorted id_le (sorted l).
Proof.
  unfold sorted. induction l as [|x l IH]; simpl; [constructor|].
  by apply sort_insert_sorted.
Qed.

Lemma StronglySorted_lookup_le (l : list SlackBotConfig.t) :
  StronglySorted id_le l ->
  forall (i j : nat) (a b : SlackBotConfig.t),
    (i < j)%nat -> l !! i = Some a -> l !! j = Some b -> id_le a b.
Proof.
  induction 1 as [|y l Hl IH Hy]; intros i j a b Hij Ha Hb; [done|].
  destruct j as [|j]; [lia|]. simpl in Hb. destruct i as [|i]; simpl in Ha.
  - injection Ha as ->. rewrite Forall_forall in Hy. apply Hy.
    by eapply list_elem_of_lookup_2.
  - apply (IH i j); [lia|done..].
Qed.

Lemma sort_insert_stable (k : Z) (x : SlackBotConfig.t) (l : list SlackBotConfig.t) :
  filter (fun c => SlackBotConfig.id c = k) (Js.sort_insert compare_id x l)
  = filter (fun c => SlackBotConfig.id c = k) (x :: l).
Proof.
  induction l as [|y l IH]; simpl; [done|].
  destruct (_ <=? 0) eqn:Hcmp; [done|].
  assert (SlackBotConfig.id x <> SlackBotConfig.id y) as Hne.
  { intros Heq. assert (id_le x y) as Hle by (unfold id_le; lia).
    apply compare_id_le in Hle. congruence. }
  rewrite (filter_cons _ y), IH, !filter_cons.
  repeat case_decide; done || congruence.
Qed.

Lemma sorted_stable (k : Z) (l : list SlackBotConfig.t) :
  filter (fun c => SlackBotConfig.id c = k) (sorted l)
  = filter (fun c => SlackBotConfig.id c = k) l.
Proof.
  unfold sorted. induction l as [|x l IH]; simpl; [done|].
  by rewrite sort_insert_stable, !filter_cons, IH.
Qed.
End sorting.

(** C6: the order applied before display is by id ascending and stable: the
    sorted array is a rearrangement of the input in which an earlier record
    never has the larger id, and the records of any one id keep their input
    order; the comparator orders any two records by their ids. *)
Theorem sorted_by_id_stable (slackBotConfigs : list SlackBotConfig.t) :
  BotPage.sorted slackBotConfigs ≡ₚ slackBotConfigs
  /\ (forall (i j : nat) (a b : SlackBotConfig.t),
        (i < j)%nat ->
        BotPage.sorted slackBotConfigs !! i = Some a ->
        BotPage.sorted slackBotConfigs !! j = Some b ->
        SlackBotConfig.id a <= SlackBotConfig.id b)
  /\ (forall k : Z,
        filter (fun c => SlackBotConfig.id c = k) (BotPage.sorted slackBotConfigs)
        = filter (fun c => SlackBotConfig.id c = k) slackBotConfigs)
  /\ (forall a b : SlackBotConfig.t,
        (BotPage.compare_id a b < 0 <-> SlackBotConfig.id a < SlackBotConfig.id b)
        /\ (BotPage.compare_id a b = 0 <-> SlackBotConfig.id a = SlackBotConfig.id b)
        /\ (BotPage.compare_id a b > 0 <-> SlackBotConfig.id a > SlackBotConfig.id b)).
Proof.
  split; [apply sorted_perm|]. split; [|split].
  - apply StronglySorted_lookup_le, sorted_StronglySorted.
  - intros k. apply sorted_stable.
  - apply compare_id_sign.
Qed.

Lemma sorted_by_id_stable_witness :
  SlackBotConfig.id (config_in 1 "b") <= SlackBotConfig.id (config_in 3 "a").
Proof.
  apply (proj1 (proj2 (sorted_by_id_stable configs_with_tie)) 0%nat 2%nat);
    [lia | reflexivity | reflexivity].
Defined.

(** The two configs of id 3 come out last, "a" before "c" as in the
    input. *)
Example sorted_keeps_ties :
  BotPage.sorted configs_with_tie
  = [config_in 1 "b"; config_in 2 "d"; config_in 3 "a"; config_in 3 "c"].
Proof. reflexivity. Qed.

(** ** Pagination *)

(** Between bounds that are not negative, [slice] reads the array from
    [start] up to, not including, [end_], as far as it reaches. *)
Lemma slice_lookup {A} (start end_ : Z) (l : list A) (i : nat) :
  0 <= start <= end_ ->
  Js.slice start end_ l !! i
  = if (i <? Z.to_nat (end_ - start))%nat
    then l !! (Z.to_nat start + i)%nat
    else None.
Proof.
  intros Hbounds. unfold Js.slice.
  destruct (start <? 0) eqn:Hs; [apply Z.ltb_lt in Hs; lia|].
  destruct (end_ <? 0) eqn:He; [apply Z.ltb_lt in He; lia|].
  destruct (i <? Z.to_nat (end_ - start))%nat eqn:Hi.
  - apply Nat.ltb_lt in Hi.
    destruct (decide (Z.to_nat start + i < length l)%nat) as [Hin|Hout].
    + rewrite lookup_take_lt by lia. rewrite lookup_drop. f_equal. lia.
    + rewrite (lookup_ge_None_2 l) by lia.
      apply lookup_ge_None_2. rewrite length_take, length_drop. lia.
  - apply Nat.ltb_ge in Hi. apply lookup_take_ge. lia.
Qed.

Lemma ceil_div_50 (n : Z) : Js.ceil_div n 50 = - ((- n) / 50).
Proof.
  unfold Js.ceil_div, Qceiling, Qfloor. simpl. f_equal. f_equal. lia.
Qed.

(** C5: with pages of 50, page [page] (counted from 1) shows the records at
    offsets [(page-1)*50] to [page*50-1] of the sorted list, and the page
    selector is given ceil(length/50) pages; over 120 configs page 2 shows
    offsets 50 to 99 and there are 3 pages. *)
Theorem pagination_slice (slackBotConfigs : list SlackBotConfig.t) (page : Z) :
  1 <= page ->
  (forall i : nat,
     BotPage.pageConfigs page slackBotConfigs !! i
     = if (i <? 50)%nat
       then BotPage.sorted slackBotConfigs !! (Z.to_nat ((page - 1) * 50) + i)%nat
       else None)
  /\ 50 * (BotPage.totalPages slackBotConfigs - 1)
     < Z.of_nat (length slackBotConfigs)
     <= 50 * BotPage.totalPages slackBotConfigs
  /\ (length slackBotConfigs = 120%nat ->
      BotPage.pageConfigs 2 slackBotConfigs
      = take 50 (drop 50 (BotPage.sorted slackBotConfigs))
      /\ length (BotPage.pageConfigs 2 slackBotConfigs) = 50%nat
      /\ BotPage.totalPages slackBotConfigs = 3).
Proof.
  intros Hpage.
  assert (length (BotPage.sorted slackBotConfigs) = length slackBotConfigs) as Hlen
    by (apply Permutation_length, sorted_perm).
  split; [|split].
  - intros i. unfold BotPage.pageConfigs, BotPage.numToDisplay.
    rewrite slice_lookup by lia.
    replace (Z.to_nat (page * 50 - (page - 1) * 50)) with 50%nat by lia. done.
  - unfold BotPage.totalPages, BotPage.numToDisplay. rewrite Hlen, ceil_div_50.
    pose proof (Z.div_mod (- Z.of_nat (length slackBotConfigs)) 50 ltac:(lia)).
    pose proof (Z.mod_pos_bound (- Z.of_nat (length slackBotConfigs)) 50 ltac:(lia)).
    lia.
  - intros H120. split; [|split].
    + unfold BotPage.pageConfigs, BotPage.numToDisplay, Js.slice.
      rewrite Hlen, H120. reflexivity.
    + unfold BotPage.pageConfigs, BotPage.numToDisplay, Js.slice.
      rewrite Hlen, H120. simpl. rewrite length_take, length_drop. lia.
    + unfold BotPage.totalPages, BotPage.numToDisplay. rewrite Hlen, H120.
      reflexivity.
Qed.

Lemma pagination_slice_witness :
  (forall i : nat,
     BotPage.pageConfigs 2 configs_120 !! i
     = if (i <? 50)%nat
       then BotPage.sorted configs_120 !! (Z.to_nat ((2 - 1) * 50) + i)%nat
       else None)
  /\ 50 * (BotPage.totalPages configs_120 - 1)
     < Z.of_nat (length configs_120)
     <= 50 * BotPage.totalPages configs_120
  /\ (length configs_120 = 120%nat ->
      BotPage.pageConfigs 2 configs_120
      = take 50 (drop 50 (BotPage.sorted configs_120))
      /\ length (BotPage.pageConfigs 2 configs_120) = 50%nat
      /\ BotPage.totalPages configs_120 = 3).
Proof. apply (pagination_slice configs_120 2). lia. Defined.

(** On those 120 configs, page 2 shows ids 51 to 100. *)
Example page_2_of_120 :
  map SlackBotConfig.id (BotPage.pageConfigs 2 configs_120)
  = map (fun n => 51 + Z.of_nat n) (seq 0 50)
  /\ BotPage.totalPages configs_120 = 3.
Proof. split; by vm_compute. Qed.

(** ** Failed calls *)

Section failures.
Import Http Popup Eff.

Lemma append_cons (a : Ascii.ascii) (s t : string) :
  String a s +:+ t = String a (s +:+ t).
Proof. reflexivity. Qed.

Lemma append_empty (s : string) : s +:+ "" = s.
Proof. induction s as [|a s IH]; [done|]. by rewrite append_cons, IH. Qed.

Lemma prefix_append (s t : string) : String.prefix s (s +:+ t) = true.
Proof.
  induction s as [|a s IH]; [by destruct t|].
  rewrite append_cons. simpl. by destruct (Ascii.ascii_dec a a).
Qed.

Lemma includes_append (pre s : string) : Js.includes (pre +:+ s) s = true.
Proof.
  induction pre as [|a pre IH].
  - change ("" +:+ s) with s.
    pose proof (prefix_append s "") as Hp. rewrite append_empty in Hp.
    destruct s; simpl in *; [done|]. by rewrite Hp.
  - rewrite append_cons. simpl. rewrite IH. apply orb_true_r.
Qed.

End failures.

(** ** Proof steps over handler runs *)

(** Name the next response and split on whether it is ok, or on whether
    its body parses. *)
Ltac next_response b :=
  match goal with
  | |- context [Http.ok (b ?t ?q)] =>
      let r := fresh "r" in
      let Hok := fresh "Hok" in
      set (r := b t q) in *; destruct (Http.ok r) eqn:Hok; simpl
  | |- context [Eff.response_json ?r] =>
      unfold Eff.response_json; destruct (Http.json r); simpl
  | |- context [Http.json ?r] => destruct (Http.json r); simpl
  end.

Ltac new_events H :=
  simpl in H; rewrite <- ?app_assoc in H; apply app_inv_head in H; subst.

Ltac which_event H :=
  repeat (apply elem_of_cons in H as [H|H]);
  [ .. | by apply elem_of_nil in H ]; try discriminate H.

Ltac shown Hin :=
  injection Hin as ? ?; subst;
  first [ congruence
        | eexists; split; [reflexivity | apply includes_append] ].

Ltac kept Hevs Hin :=
  new_events Hevs; split; intros Hm; which_event Hm;
  which_event Hin; injection Hin as ? ?; subst; congruence.

Section google_drive_failures.
Import Http Popup Eff GoogleDrivePage.

Lemma upload_failures_shown (b : Backend) (w : World) (str : option string) :
  failures_shown b (appCredentialUpload_onClick upload_setPopup str) w.
Proof.
  intros evs req resp Hevs Hin Hfail. revert Hevs.
  unfold appCredentialUpload_onClick. simpl.
  repeat next_response b; intros Hevs; new_events Hevs; which_event Hin; shown Hin.
Qed.

Lemma authenticate_failures_shown (b : Backend) (w : World) :
  failures_shown b authenticate_onClick w.
Proof.
  intros evs req resp Hevs Hin Hfail. revert Hevs.
  unfold authenticate_onClick. simpl.
  repeat next_response b; intros Hevs; new_events Hevs; which_event Hin; shown Hin.
Qed.

Lemma add_failures_shown (b : Backend) (w : World) (c : option Credential.t) :
  failures_shown b (add_onClick c) w.
Proof.
  intros evs req resp Hevs Hin Hfail. revert Hevs.
  unfold add_onClick. simpl.
  repeat next_response b; destruct c as [c|]; simpl;
    repeat next_response b; intros Hevs; new_events Hevs; which_event Hin; shown Hin.
Qed.

Lemma authenticate_failures_keep_cache (b : Backend) (w : World) :
  failures_keep_cache b authenticate_onClick w.
Proof.
  intros evs req resp Hevs Hin Hfail key. revert Hevs.
  unfold authenticate_onClick. simpl.
  repeat next_response b; intros Hevs; kept Hevs Hin.
Qed.

Lemma add_failures_keep_cache (b : Backend) (w : World) (c : option Credential.t) :
  failures_keep_cache b (add_onClick c) w.
Proof.
  intros evs req resp Hevs Hin Hfail key. revert Hevs.
  unfold add_onClick. simpl.
  repeat next_response b; destruct c as [c|]; simpl;
    repeat next_response b; intros Hevs; kept Hevs Hin.
Qed.
End google_drive_failures.

(** C7, as stated, fails on the bot page: when deleting a config is answered
    with status 500 and body "boom", the notice reads "Failed to delete
    Slack bot config - boom", which does not contain 500. *)
Lemma bot_delete_error_omits_status :
  Http.ok (backend_always 500 "boom" [] (Lib.deleteSlackBotConfig_request 5)) = false
  /\ Eff.popup (Eff.run (backend_always 500 "boom") bot_delete_5 Eff.initial).2
     = Some {| Popup.message := "Failed to delete Slack bot config - boom";
               Popup.type := Popup.error |}
  /\ Js.includes "Failed to delete Slack bot config - boom" (pretty 500%N) = false
  /\ ~ failures_shown (backend_always 500 "boom") bot_delete_5 Eff.initial.
Proof.
  split; [done|]. split; [done|]. split; [by vm_compute|].
  intros Hshown.
  destruct (Hshown _ (Lib.deleteSlackBotConfig_request 5)
              (backend_always 500 "boom" [] (Lib.deleteSlackBotConfig_request 5))
              eq_refl) as (msg & Hmsg & Hinc); [left | done |].
  injection Hmsg as <-. by vm_compute in Hinc.
Qed.

(** C7, amended: for the calls the Google Drive page makes itself (uploading
    the app credential, creating the credential and fetching its
    authorization URL, creating the connector and linking it), a response
    that is not 2xx puts up an error notice "Failed to ... - {status}", which
    contains the status code. *)
Theorem googleDrive_failures_show_status
    (b : Eff.Backend) (w : Eff.World)
    (appCredentialJsonStr : option string) (credential : option Credential.t) :
  failures_shown b
    (GoogleDrivePage.appCredentialUpload_onClick GoogleDrivePage.upload_setPopup
       appCredentialJsonStr) w
  /\ failures_shown b GoogleDrivePage.authenticate_onClick w
  /\ failures_shown b (GoogleDrivePage.add_onClick credential) w.
Proof.
  split; [apply upload_failures_shown|].
  split; [apply authenticate_failures_shown | apply add_failures_shown].
Qed.

Lemma googleDrive_failures_show_status_witness :
  shows_status response_503
    (Eff.run (backend_always 503 "") (GoogleDrivePage.add_onClick None) Eff.initial).2.
Proof.
  eapply (proj2 (proj2 (googleDrive_failures_show_status
                          (backend_always 503 "") Eff.initial None None)))
    with (req := create_connector_request);
    [reflexivity | left | reflexivity].
Defined.

(** A failed connector creation, answered with 503. *)
Example add_failure_503 :
  Eff.popup
    (Eff.run (backend_always 503 "") (GoogleDrivePage.add_onClick None) Eff.initial).2
  = Some {| Popup.message := "Failed to create connector - 503";
            Popup.type := Popup.error |}
  /\ Eff.signals
       (Eff.trace
          (Eff.run (backend_always 503 "") (GoogleDrivePage.add_onClick None)
             Eff.initial).2)
     = [Eff.SetPopup
          (Some {| Popup.message := "Failed to create connector - 503";
                   Popup.type := Popup.error |});
        Eff.SetTimeout Eff.ClearPopup 4000].
Proof. split; by vm_compute. Qed.

(** C8, as stated, fails on the bot page: the delete handler calls
    [refresh] after the failed call as well. *)
Lemma bot_delete_refreshes_after_failure :
  Http.ok (backend_always 500 "boom" [] (Lib.deleteSlackBotConfig_request 5)) = false
  /\ Eff.Refresh
     ∈ Eff.signals
         (Eff.trace (Eff.run (backend_always 500 "boom") bot_delete_5 Eff.initial).2)
  /\ ~ failures_keep_cache (backend_always 500 "boom") bot_delete_5 Eff.initial.
Proof.
  split; [done|]. split; [vm_compute; set_solver|].
  intros Hkept.
  specialize (Hkept _ (Lib.deleteSlackBotConfig_request 5)
                (backend_always 500 "boom" [] (Lib.deleteSlackBotConfig_request 5))
                eq_refl).
  pose proof (Hkept (list_elem_of_here _ _) eq_refl "") as [_ Hrefresh].
  apply Hrefresh. do 3 apply list_elem_of_further. apply list_elem_of_here.
Qed.

(** The Slack page signals the credential cache after a failed delete too,
    and puts up no notice. *)
Lemma slack_delete_mutates_after_failure :
  let w := (Eff.run (backend_always 500 "boom")
              (SlackPage.credentialDelete_onClick
                 (make_credential 7 "slack_bot_token" "xoxb-x"))
              Eff.initial).2 in
  Eff.signals (Eff.trace w) = [Eff.Mutate "/api/manage/credential"]
  /\ Eff.popup w = None.
Proof. done. Qed.

(** C8, amended: in the Google Drive page's handlers that create the
    credential and that create and link the connector, a response that is
    not 2xx ends the handler before any cache is signalled. *)
Theorem googleDrive_failures_keep_cache
    (b : Eff.Backend) (w : Eff.World) (credential : option Credential.t) :
  failures_keep_cache b GoogleDrivePage.authenticate_onClick w
  /\ failures_keep_cache b (GoogleDrivePage.add_onClick credential) w.
Proof.
  split; [apply authenticate_failures_keep_cache | apply add_failures_keep_cache].
Qed.

Lemma googleDrive_failures_keep_cache_witness :
  (Eff.Did (Eff.Mutate "/api/admin/connector/indexing-status")
   ∉ Eff.trace
       (Eff.run (backend_always 503 "") (GoogleDrivePage.add_onClick None)
          Eff.initial).2)
  /\ (Eff.Did Eff.Refresh
      ∉ Eff.trace
          (Eff.run (backend_always 503 "") (GoogleDrivePage.add_onClick None)
             Eff.initial).2).
Proof.
  eapply (proj2 (googleDrive_failures_keep_cache
                   (backend_always 503 "") Eff.initial None))
    with (req := create_connector_request) (resp := response_503);
    [reflexivity | left | reflexivity].
Defined.

(** ** Expiring notices *)

Section expiry.
Import Http Popup Eff.

Lemma fire_all_clears (due : list (Z * TimerCallback)) (w : World) :
  due <> [] -> popup (foldl (fun w t => fire t.2 w) w due) = None.
Proof.
  revert w. induction due as [|[d cb] due IH]; intros w Hne; [done|].
  simpl. destruct due as [|t due'].
  - by destruct cb.
  - by apply IH.
Qed.

Lemma fire_all_clock (due : list (Z * TimerCallback)) (w : World) :
  clock (foldl (fun w t => fire t.2 w) w due) = clock w
  /\ timers (foldl (fun w t => fire t.2 w) w due) = timers w.
Proof.
  revert w. induction due as [|[d []] due IH]; intros w; [done|].
  cbn [foldl snd]. by destruct (IH (fire ClearPopup w)) as [-> ->].
Qed.

(** Once a timer has come due, the popup is gone. *)
Lemma advance_clears (dt : Z) (w : World) (d : Z) (cb : TimerCallback) :
  (d, cb) ∈ timers w -> d <= clock w + dt -> popup (advance dt w) = None.
Proof.
  intros Hin Hdue. unfold advance. apply fire_all_clears.
  intros Hnil.
  assert ((d, cb) ∈ filter (fun t : Z * TimerCallback => t.1 <= clock w + dt) (timers w))
    as Hd by (by apply list_elem_of_filter).
  rewrite Hnil in Hd. by apply elem_of_nil in Hd.
Qed.

(** With nothing due, time passing changes only the clock. *)
Lemma advance_keeps (dt : Z) (w : World) :
  (forall t, t ∈ timers w -> clock w + dt < t.1) ->
  popup (advance dt w) = popup w /\ timers (advance dt w) = timers w.
Proof.
  intros Hlater. unfold advance.
  assert (filter (fun t : Z * TimerCallback => t.1 <= clock w + dt) (timers w) = [])
    as ->.
  { induction (timers w) as [|t l IH]; [done|]. rewrite filter_cons.
    destruct (decide _) as [Hle|_].
    - specialize (Hlater t ltac:(left)). lia.
    - apply IH. intros t' Ht'. apply Hlater. by right. }
  simpl. split; [done|].
  induction (timers w) as [|t l IH]; [done|]. rewrite filter_cons.
  destruct (decide _) as [_|Hn].
  - f_equal. apply IH. intros t' Ht'. apply Hlater. by right.
  - specialize (Hlater t ltac:(left)). lia.
Qed.

Lemma expiring_more_timers (w : World) (t : Z * TimerCallback) (e : list Event) :
  expiring w ->
  expiring {| popup := popup w; clock := clock w;
              timers := timers w ++ [t]; trace := e |}.
Proof.
  intros [Hnone|(d & Hd & Hle)]; [by left|].
  right. exists d. split; [|done]. simpl. apply elem_of_app. by left.
Qed.

Lemma run_expiring {A} (b : Backend) (p : Prog A) (w : World) :
  Expiring p -> expiring w -> expiring (run b p w).2.
Proof.
  intros Hp. revert w.
  induction Hp as [a|e|req k Hk IH|p k Hk IH|key k Hk IH|k Hk IH|u k Hk IH];
    intros w Hw; simpl; try done.
  - apply IH. destruct Hw as [Hw|Hw]; [by left | by right].
  - apply IH. right. exists (clock w + 4000). split; [|simpl; lia].
    simpl. apply elem_of_app. right. left.
  - apply IH. destruct Hw as [Hw|Hw]; [by left | by right].
  - apply IH. destruct Hw as [Hw|Hw]; [by left | by right].
  - apply IH. destruct Hw as [Hw|Hw]; [by left | by right].
Qed.

Lemma advance_expiring (dt : Z) (w : World) :
  0 <= dt -> expiring w -> expiring (advance dt w).
Proof.
  intros Hdt Hw.
  destruct (decide (Exists (fun t : Z * TimerCallback => t.1 <= clock w + dt) (timers w)))
    as [Hex|Hno].
  - left. apply Exists_exists in Hex as ([d cb] & Hin & Hle).
    by apply (advance_clears dt w d cb).
  - rewrite <- Forall_Exists_neg, Forall_forall in Hno.
    destruct (advance_keeps dt w) as [Hp Ht].
    { intros t Ht. specialize (Hno t Ht). simpl in Hno. lia. }
    destruct Hw as [Hw|(d & Hd & Hle)]; [left; congruence|].
    right. exists d. rewrite Ht. split; [done|].
    unfold advance. destruct (fire_all_clock
      (filter (fun t : Z * TimerCallback => t.1 <= clock w + dt) (timers w))
      {| popup := popup w; clock := clock w + dt;
         timers := filter (fun t : Z * TimerCallback => ~ t.1 <= clock w + dt) (timers w);
         trace := trace w |}) as [-> _].
    simpl. lia.
Qed.

Lemma expiring_cleared (dt : Z) (w : World) :
  4000 <= dt -> expiring w -> popup (advance dt w) = None.
Proof.
  intros Hdt [Hnone|(d & Hd & Hle)].
  - destruct (decide (Exists (fun t : Z * TimerCallback => t.1 <= clock w + dt) (timers w)))
      as [Hex|Hno].
    + apply Exists_exists in Hex as ([d cb] & Hin & Hle).
      by apply (advance_clears dt w d cb).
    + rewrite <- Forall_Exists_neg, Forall_forall in Hno.
      destruct (advance_keeps dt w) as [Hp _]; [|congruence].
      intros t Ht. specialize (Hno t Ht). simpl in Hno. lia.
  - apply (advance_clears dt w d ClearPopup); [done|lia].
Qed.
End expiry.

Ltac expiring_step :=
  first
    [ apply Expiring_ret | apply Expiring_throw
    | apply Expiring_popup | apply Expiring_mutate
    | apply Expiring_refresh | apply Expiring_push
    | apply Expiring_fetch; intros ?
    | match goal with
      | |- context [if negb (Http.ok ?r) then _ else _] => destruct (Http.ok r)
      | |- context [if Http.ok ?r then _ else _] => destruct (Http.ok r)
      | |- context [Eff.response_json ?r] => unfold Eff.response_json; destruct (Http.json r)
      | |- context [Http.json ?r] => destruct (Http.json r)
      | |- context [Eff.get_id ?c] => destruct c
      end
    | progress simpl ].

Section google_drive_notices.
Import Http Popup Eff GoogleDrivePage.

(** Every handler of the Google Drive page sets the popup through
    [setPopupWithExpiration]. *)
Lemma googleDrive_handlers_expiring
    (str : option string) (c : option Credential.t) (s : ConnectorIndexingStatus.t) :
  Expiring (appCredentialUpload_onClick upload_setPopup str)
  /\ Expiring authenticate_onClick
  /\ Expiring (add_onClick c)
  /\ Expiring (deleteConnector_onClick s).
Proof.
  unfold appCredentialUpload_onClick, authenticate_onClick, add_onClick,
    deleteConnector_onClick.
  repeat split; repeat expiring_step.
Qed.

(** The notice stays up while its timer, the only one, is not yet due. *)
Lemma popup_kept_before_4000ms
    (b : Backend) (w : World) (popupSpec : option PopupSpec) (dt : Z) :
  timers w = [] -> dt < 4000 ->
  popup (advance dt (run b (setPopupWithExpiration popupSpec) w).2) = popupSpec.
Proof.
  intros Hnone Hdt. unfold advance. simpl. rewrite Hnone. simpl.
  rewrite !filter_cons, !filter_nil.
  repeat case_decide; simpl in *; first [lia | done].
Qed.

(** The hook of the other pages, as modelled, behaves the same. *)
Lemma usePopup_cleared_after_4000ms
    (b : Backend) (w : World) (popupSpec : option PopupSpec) (dt : Z) :
  4000 <= dt ->
  popup (advance dt (run b (Lib.usePopup_setPopup popupSpec) w).2) = None.
Proof.
  intros Hdt. apply (advance_clears _ _ (clock w + 4000) ClearPopup); simpl; [|lia].
  apply elem_of_app. right. left.
Qed.
End google_drive_notices.

(** C9: a popup set through [setPopupWithExpiration] is on screen with a
    timer of 4000 ms registered behind it, and once 4000 ms or more have
    passed, with no further event, the popup state is cleared. *)
Theorem popup_cleared_after_4000ms
    (b : Eff.Backend) (w : Eff.World) (popupSpec : option Popup.PopupSpec) (dt : Z) :
  4000 <= dt ->
  let w1 := (Eff.run b (GoogleDrivePage.setPopupWithExpiration popupSpec) w).2 in
  Eff.popup w1 = popupSpec
  /\ Eff.timers w1 = Eff.timers w ++ [(Eff.clock w + 4000, Eff.ClearPopup)]
  /\ Eff.popup (Eff.advance dt w1) = None.
Proof.
  intros Hdt w1. subst w1. split; [done|]. split; [done|].
  apply (advance_clears _ _ (Eff.clock w + 4000) Eff.ClearPopup); simpl; [|lia].
  apply elem_of_app. right. left.
Qed.

Lemma popup_cleared_after_4000ms_witness :
  Eff.popup
    (Eff.run (backend_always 200 "")
       (GoogleDrivePage.setPopupWithExpiration (Some guard_popup)) Eff.initial).2
  = Some guard_popup
  /\ Eff.timers
       (Eff.run (backend_always 200 "")
          (GoogleDrivePage.setPopupWithExpiration (Some guard_popup)) Eff.initial).2
     = Eff.timers Eff.initial ++ [(Eff.clock Eff.initial + 4000, Eff.ClearPopup)]
  /\ Eff.popup
       (Eff.advance 4000
          (Eff.run (backend_always 200 "")
             (GoogleDrivePage.setPopupWithExpiration (Some guard_popup)) Eff.initial).2)
     = None.
Proof.
  apply (popup_cleared_after_4000ms (backend_always 200 "") Eff.initial
           (Some guard_popup) 4000).
  lia.
Defined.

(** After any handler of the Google Drive page, run in a state where the
    popup has its timer, 4000 ms without events leave no popup. *)
Lemma googleDrive_notices_expire
    (b : Eff.Backend) (w : Eff.World) (dt : Z)
    (str : option string) (c : option Credential.t) (s : ConnectorIndexingStatus.t) :
  4000 <= dt -> expiring w ->
  Eff.popup (Eff.advance dt
    (Eff.run b (GoogleDrivePage.appCredentialUpload_onClick
                  GoogleDrivePage.upload_setPopup str) w).2) = None
  /\ Eff.popup (Eff.advance dt (Eff.run b GoogleDrivePage.authenticate_onClick w).2) = None
  /\ Eff.popup (Eff.advance dt (Eff.run b (GoogleDrivePage.add_onClick c) w).2) = None
  /\ Eff.popup (Eff.advance dt (Eff.run b (GoogleDrivePage.deleteConnector_onClick s) w).2)
     = None.
Proof.
  intros Hdt Hw.
  destruct (googleDrive_handlers_expiring str c s) as (H1 & H2 & H3 & H4).
  repeat split; apply expiring_cleared; try done; by apply run_expiring.
Qed.
(** C10: [getSourceMetadata] returns a record exactly on "web", "slack",
    "google_drive" and "github", and throws Error("Invalid source type") on
    every other input, among them "notion" and "confluence" (which the
    SourceSelector list offers); [getSourceIcon] and [getSourceDisplayName]
    throw on the same inputs. *)
Theorem getSourceMetadata_partial :
  (forall s : string,
     if bool_decide (s ∈ Source.supported)
     then exists m, Source.getSourceMetadata s = inr m
                    /\ (forall sz, Source.getSourceIcon s sz
                                   = inr {| Source.icon_of := Source.icon m; Source.size := sz |})
                    /\ Source.getSourceDisplayName s = inr (Source.displayName m)
     else Source.getSourceMetadata s = inl (Js.PlainError "Invalid source type")
          /\ (forall sz, Source.getSourceIcon s sz = inl (Js.PlainError "Invalid source type"))
          /\ Source.getSourceDisplayName s = inl (Js.PlainError "Invalid source type"))
  /\ Source.getSourceMetadata "notion" = inl (Js.PlainError "Invalid source type")
  /\ Source.getSourceMetadata "confluence" = inl (Js.PlainError "Invalid source type")
  /\ "confluence" ∈ map Source.internalName Source.sources
  /\ Source.SourceSelector ["confluence"] = inl (Js.PlainError "Invalid source type").
Proof.
  split.
  - intros s. unfold Source.getSourceIcon, Source.getSourceDisplayName, Source.getSourceMetadata.
    case_bool_decide as Hs.
    + unfold Source.supported in Hs.
      repeat (apply elem_of_cons in Hs as [-> | Hs]); [ .. | by apply elem_of_nil in Hs ];
        simpl; eexists; repeat split.
    + assert (s <> "web" /\ s <> "slack" /\ s <> "google_drive" /\ s <> "github") as (H1 & H2 & H3 & H4).
      { unfold Source.supported in Hs. repeat split; intros ->; apply Hs; set_solver. }
      apply String.eqb_neq in H1, H2, H3, H4. rewrite H1, H2, H3, H4. done.
  - repeat split; try reflexivity. vm_compute. set_solver.
Qed.

(** * Further properties *)

(** ** The pages of the bot-config table *)

Lemma pageConfigs_chunk (slackBotConfigs : list SlackBotConfig.t) (page : Z) :
  1 <= page ->
  BotPage.pageConfigs page slackBotConfigs
  = take 50 (drop (Z.to_nat ((page - 1) * 50)) (BotPage.sorted slackBotConfigs)).
Proof.
  intros Hpage. apply list_eq. intros i.
  unfold BotPage.pageConfigs, BotPage.numToDisplay.
  rewrite slice_lookup by lia.
  replace (Z.to_nat (page * 50 - (page - 1) * 50)) with 50%nat by lia.
  destruct (i <? 50)%nat eqn:Hi.
  - apply Nat.ltb_lt in Hi. by rewrite lookup_take_lt, lookup_drop by done.
  - apply Nat.ltb_ge in Hi. by rewrite lookup_take_ge.
Qed.

Lemma chunks_concat {A} (c k : nat) (l : list A) :
  concat (map (fun i => take c (drop (i * c) l)) (seq 0 k)) = take (k * c) l.
Proof.
  induction k as [|k IH]; [done|].
  rewrite seq_S, map_app, concat_app, IH. simpl. rewrite app_nil_r.
  rewrite take_take_drop. f_equal. lia.
Qed.

Lemma totalPages_bounds (slackBotConfigs : list SlackBotConfig.t) :
  50 * (BotPage.totalPages slackBotConfigs - 1)
  < Z.of_nat (length slackBotConfigs)
  <= 50 * BotPage.totalPages slackBotConfigs.
Proof.
  unfold BotPage.totalPages, BotPage.numToDisplay.
  rewrite (Permutation_length (sorted_perm slackBotConfigs)), ceil_div_50.
  pose proof (Z.div_mod (- Z.of_nat (length slackBotConfigs)) 50 ltac:(lia)).
  pose proof (Z.mod_pos_bound (- Z.of_nat (length slackBotConfigs)) 50 ltac:(lia)).
  lia.
Qed.

(** X1: the pages 1 to [totalPages], one after the other, are the sorted
    list: every config is on exactly one page the selector offers, and the
    pages follow the sorted order. *)
Theorem pages_cover_sorted (slackBotConfigs : list SlackBotConfig.t) :
  concat
    (map (fun p : nat => BotPage.pageConfigs (Z.of_nat p) slackBotConfigs)
       (seq 1 (Z.to_nat (BotPage.totalPages slackBotConfigs))))
  = BotPage.sorted slackBotConfigs.
Proof.
  pose proof (totalPages_bounds slackBotConfigs) as Hb.
  rewrite <- seq_shift, map_map.
  rewrite (map_ext _
             (fun i : nat => take 50 (drop (i * 50) (BotPage.sorted slackBotConfigs)))).
  - rewrite chunks_concat. apply take_ge.
    rewrite (Permutation_length (sorted_perm slackBotConfigs)). lia.
  - intros i. rewrite pageConfigs_chunk by lia. do 2 f_equal. lia.
Qed.

(** X2: page [page], counted from 1, has 50 rows, or what is left of the
    list after the earlier pages; it has a row exactly when it is one of
    the pages 1 to [totalPages]. *)
Theorem page_row_count (slackBotConfigs : list SlackBotConfig.t) (page : Z) :
  1 <= page ->
  length (BotPage.pageConfigs page slackBotConfigs)
  = Nat.min 50 (length slackBotConfigs - Z.to_nat ((page - 1) * 50))
  /\ (BotPage.pageConfigs page slackBotConfigs <> []
      <-> page <= BotPage.totalPages slackBotConfigs).
Proof.
  intros Hpage. pose proof (totalPages_bounds slackBotConfigs) as Hb.
  assert (length (BotPage.pageConfigs page slackBotConfigs)
          = Nat.min 50 (length slackBotConfigs - Z.to_nat ((page - 1) * 50))) as Hlen.
  { rewrite pageConfigs_chunk by done. rewrite length_take, length_drop.
    by rewrite (Permutation_length (sorted_perm slackBotConfigs)). }
  split; [done|].
  destruct (BotPage.pageConfigs page slackBotConfigs) as [|c cs];
    cbn [length] in Hlen.
  - split; [done|]. intros Hle. exfalso. lia.
  - split; [|done]. intros _. lia.
Qed.

Lemma page_row_count_witness :
  length (BotPage.pageConfigs 3 configs_120)
  = Nat.min 50 (length configs_120 - Z.to_nat ((3 - 1) * 50))
  /\ (BotPage.pageConfigs 3 configs_120 <> []
      <-> 3 <= BotPage.totalPages configs_120).
Proof. apply (page_row_count configs_120 3). lia. Defined.



(** ** Sorting again, and sorting another order *)

Lemma sort_insert_least (x : SlackBotConfig.t) (l : list SlackBotConfig.t) :
  Forall (id_le x) l -> Js.sort_insert BotPage.compare_id x l = x :: l.
Proof.
  intros Hx. destruct l as [|y l]; [done|]. simpl.
  apply Forall_cons_1 in Hx as [Hxy _]. apply compare_id_le in Hxy. by rewrite Hxy.
Qed.

Lemma sort_of_sorted (l : list SlackBotConfig.t) :
  StronglySorted id_le l -> BotPage.sorted l = l.
Proof.
  unfold BotPage.sorted. induction 1 as [|x l Hl IH Hx]; [done|].
  simpl. rewrite IH. by apply sort_insert_least.
Qed.

(** X4: sorting is idempotent: the table sorts the array it is given on
    every render, and sorting the sorted array leaves it as it is. *)
Theorem sorted_idempotent (slackBotConfigs : list SlackBotConfig.t) :
  BotPage.sorted (BotPage.sorted slackBotConfigs) = BotPage.sorted slackBotConfigs.
Proof. apply sort_of_sorted, sorted_StronglySorted. Qed.

Lemma NoDup_ids_inj (l : list SlackBotConfig.t) (a b : SlackBotConfig.t) :
  NoDup (map SlackBotConfig.id l) -> a ∈ l -> b ∈ l ->
  SlackBotConfig.id a = SlackBotConfig.id b -> a = b.
Proof.
  induction l as [|c l IH]; intros Hnd Ha Hb Hid; [by apply elem_of_nil in Ha|].
  simpl in Hnd. apply NoDup_cons in Hnd as [Hc Hnd].
  apply elem_of_cons in Ha as [->|Ha], Hb as [->|Hb]; [done| | |by apply IH].
  - exfalso. apply Hc. rewrite Hid. by apply list_elem_of_fmap_2.
  - exfalso. apply Hc. rewrite <- Hid. by apply list_elem_of_fmap_2.
Qed.

(** X5: when no two configs share an id, the order shown does not depend
    on the order received: any rearrangement of the input sorts to the same
    list. *)
Theorem sorted_order_independent (l1 l2 : list SlackBotConfig.t) :
  NoDup (map SlackBotConfig.id l1) -> l1 ≡ₚ l2 ->
  BotPage.sorted l1 = BotPage.sorted l2.
Proof.
  intros Hnd Hperm.
  apply (StronglySorted_unique_strong id_le).
  - intros x1 x2 Hx1 Hx2 H12 H21.
    apply (NoDup_ids_inj l1); [done| | |unfold id_le in *; lia].
    + by rewrite <- (sorted_perm l1).
    + by rewrite Hperm, <- (sorted_perm l2).
  - apply sorted_StronglySorted.
  - apply sorted_StronglySorted.
  - by rewrite !sorted_perm.
Qed.

Lemma sorted_order_independent_witness :
  BotPage.sorted [config_in 2 "d"; config_in 1 "b"; config_in 3 "a"]
  = BotPage.sorted [config_in 3 "a"; config_in 2 "d"; config_in 1 "b"].
Proof.
  apply sorted_order_independent.
  - apply (bool_decide_eq_true_1 _). reflexivity.
  - symmetry.
    apply (Permutation_cons_append [config_in 2 "d"; config_in 1 "b"]
             (config_in 3 "a")).
Defined.

(** ** What the handlers send and signal *)

(** As [next_response], keeping what the body parsed to. *)
Ltac next_response_eq b :=
  match goal with
  | |- context [Http.ok (b ?t ?q)] =>
      let r := fresh "r" in
      let Hok := fresh "Hok" in
      set (r := b t q) in *; destruct (Http.ok r) eqn:Hok; simpl
  | |- context [Eff.response_json ?r] =>
      let Hjson := fresh "Hjson" in
      unfold Eff.response_json; destruct (Http.json r) eqn:Hjson; simpl
  | |- context [Http.json ?r] =>
      let Hjson := fresh "Hjson" in
      destruct (Http.json r) eqn:Hjson; simpl
  end.

Ltac new_trace :=
  eexists; split; [simpl; rewrite <- ?app_assoc; reflexivity|].

Ltac not_among H := intros H; which_event H.

Ltac all_among H :=
  which_event H; try (injection H as ? ?; subst); try done.

(** X6: deleting a bot config sends one DELETE for that config, puts up one
    notice and then refreshes the list once, in this order and whatever the
    answer; the notice is the success notice when the response is ok, and
    otherwise an error notice that ends with the text of the response. *)
Theorem bot_delete_then_refresh
    (b : Eff.Backend) (w : Eff.World) (slackBotConfig : SlackBotConfig.t) :
  let request := Lib.deleteSlackBotConfig_request (SlackBotConfig.id slackBotConfig) in
  let response := b (Eff.trace w) request in
  exists notice,
    Eff.trace
      (Eff.run b
         (BotPage.delete_onClick Lib.usePopup_setPopup BotPage.refresh slackBotConfig)
         w).2
    = Eff.trace w
      ++ [Eff.Called request response;
          Eff.Did (Eff.SetPopup (Some notice));
          Eff.Did (Eff.SetTimeout Eff.ClearPopup 4000);
          Eff.Did Eff.Refresh]
    /\ (Http.ok response = true -> Popup.type notice = Popup.success)
    /\ (Http.ok response = false ->
        notice = {| Popup.message := "Failed to delete Slack bot config - "
                                     +:+ Http.text response;
                    Popup.type := Popup.error |}).
Proof.
  intros request response. subst request response.
  unfold BotPage.delete_onClick. simpl.
  destruct (Http.ok _) eqn:Hok; simpl; eexists;
    (split; [rewrite <- !app_assoc; reflexivity|]); split; done.
Qed.

(** X7: the "Authenticate" handler never signals a cache and sends at most
    two requests; it navigates only when both were answered ok, and then no
    notice has been set; the authorization request, when sent, follows an
    ok credential creation and names the id of the created credential. *)
Theorem authenticate_navigates_after_success (b : Eff.Backend) (w : Eff.World) :
  exists evs,
    Eff.trace (Eff.run b GoogleDrivePage.authenticate_onClick w).2 = Eff.trace w ++ evs
    /\ (forall key, Eff.Did (Eff.Mutate key) ∉ evs)
    /\ (length (Eff.calls evs) <= 2)%nat
    /\ (forall u, Eff.Did (Eff.RouterPush u) ∈ evs ->
          length (Eff.calls evs) = 2%nat
          /\ (forall req resp, Eff.Called req resp ∈ evs -> Http.ok resp = true)
          /\ (forall p, Eff.Did (Eff.SetPopup p) ∉ evs))
    /\ (forall req resp,
          Eff.Called req resp ∈ evs -> Http.method req = Http.GET ->
          exists created credential,
            Eff.Called create_credential_request created ∈ evs
            /\ Http.ok created = true
            /\ Http.json created = Some credential
            /\ Http.url req
               = "/api/admin/connector/google-drive/authorize/"
                 +:+ Js.to_string (credential !! "id")).
Proof.
  unfold GoogleDrivePage.authenticate_onClick. simpl.
  repeat next_response_eq b; new_trace.
  all: split; [intros key; not_among H|].
  all: split; [simpl; lia|].
  all: split;
    [intros u Hu; which_event Hu; repeat apply conj;
     first [by simpl | intros req resp H; all_among H | intros p; not_among H]|].
  all: intros req resp H Hget; which_event H; injection H as -> ->;
    try discriminate Hget.
  all: exists r; eexists; split; [left|]; done.
Qed.

(** X8: the "Add" handler only ever sends a POST and a PUT: there is no
    request that undoes the creation when the link fails or the credential
    is absent.  The cache is signalled exactly when the success notice is
    set, with the key of the indexing statuses, and then both requests were
    answered ok. *)
Theorem add_has_no_rollback
    (b : Eff.Backend) (w : Eff.World) (googleDriveCredential : option Credential.t) :
  exists evs,
    Eff.trace (Eff.run b (GoogleDrivePage.add_onClick googleDriveCredential) w).2
    = Eff.trace w ++ evs
    /\ (forall req resp,
          Eff.Called req resp ∈ evs ->
          Http.method req = Http.POST \/ Http.method req = Http.PUT)
    /\ (forall key,
          Eff.Did (Eff.Mutate key) ∈ evs ->
          key = indexing_status_key
          /\ Eff.Did (Eff.SetPopup (Some created_notice)) ∈ evs
          /\ length (Eff.calls evs) = 2%nat
          /\ (forall req resp, Eff.Called req resp ∈ evs -> Http.ok resp = true))
    /\ (Eff.Did (Eff.SetPopup (Some created_notice)) ∈ evs ->
        Eff.Did (Eff.Mutate indexing_status_key) ∈ evs).
Proof.
  unfold GoogleDrivePage.add_onClick. simpl.
  repeat next_response_eq b; destruct googleDriveCredential as [c|]; simpl;
    repeat next_response_eq b; new_trace.
  all: split; [intros req resp H; which_event H; injection H as -> ->; auto|].
  all: split;
    [intros key Hkey; which_event Hkey; injection Hkey as ->; repeat apply conj;
     first [ by simpl
           | by do 2 apply list_elem_of_further; apply list_elem_of_here
           | intros req resp H; all_among H ]|].
  all: intros H; which_event H; do 4 apply list_elem_of_further; apply list_elem_of_here.
Qed.

(** X9: uploading the app credential sends one PUT whose body is the file's
    text, then signals the app-credential cache and sets one notice, on
    either outcome; the notice is the success notice exactly when the
    response is ok. *)
Theorem upload_always_refreshes
    (b : Eff.Backend) (w : Eff.World) (appCredentialJsonStr : string) :
  let request := upload_request (Some appCredentialJsonStr) in
  let response := b (Eff.trace w) request in
  exists notice,
    Eff.trace
      (Eff.run b
         (GoogleDrivePage.appCredentialUpload_onClick GoogleDrivePage.upload_setPopup
            (Some appCredentialJsonStr)) w).2
    = Eff.trace w
      ++ [Eff.Called request response;
          Eff.Did (Eff.Mutate app_credential_key);
          Eff.Did (Eff.SetPopup (Some notice));
          Eff.Did (Eff.SetTimeout Eff.ClearPopup 4000)]
    /\ Http.body request = Http.RawBody appCredentialJsonStr
    /\ (Popup.type notice = Popup.success <-> Http.ok response = true).
Proof.
  intros request response. subst request response.
  unfold GoogleDrivePage.appCredentialUpload_onClick, upload_request. simpl.
  destruct (Http.ok _) eqn:Hok; simpl; eexists;
    (split; [rewrite <- !app_assoc; reflexivity|]); split; done.
Qed.

(** ** Notices that overlap *)

(** X10: timers are never cancelled: a notice set [d] ms after an earlier
    one, while that one's timer is pending, stays up for the [4000 - d] ms
    left on the earlier timer and is cleared when that timer fires. *)
Theorem second_notice_cleared_early
    (b : Eff.Backend) (w : Eff.World)
    (first second : option Popup.PopupSpec) (d : Z) :
  Eff.timers w = [] -> 0 <= d < 4000 ->
  let w1 := (Eff.run b (GoogleDrivePage.setPopupWithExpiration first) w).2 in
  let w2 := (Eff.run b (GoogleDrivePage.setPopupWithExpiration second)
               (Eff.advance d w1)).2 in
  Eff.popup w2 = second
  /\ Eff.timers w2
     = [(Eff.clock w + 4000, Eff.ClearPopup); (Eff.clock w + d + 4000, Eff.ClearPopup)]
  /\ (forall dt, 0 <= dt < 4000 - d -> Eff.popup (Eff.advance dt w2) = second)
  /\ Eff.popup (Eff.advance (4000 - d) w2) = None.
Proof.
  intros Hnone Hd w1 w2.
  assert (Eff.timers w2
          = [(Eff.clock w + 4000, Eff.ClearPopup);
             (Eff.clock w + d + 4000, Eff.ClearPopup)]
          /\ Eff.popup w2 = second /\ Eff.clock w2 = Eff.clock w + d)
    as (Htimers & Hpopup & Hclock).
  { subst w1 w2. unfold Eff.advance. simpl. rewrite Hnone. simpl.
    rewrite !filter_cons, !filter_nil.
    repeat case_decide; simpl in *; first [lia | done]. }
  split; [done|]. split; [done|]. split.
  - intros dt Hdt. rewrite <- Hpopup. apply advance_keeps.
    intros t Ht. rewrite Htimers in Ht. rewrite Hclock.
    repeat (apply elem_of_cons in Ht as [->|Ht]); [simpl; lia..|].
    by apply elem_of_nil in Ht.
  - apply (advance_clears _ _ (Eff.clock w + 4000) Eff.ClearPopup).
    + rewrite Htimers. left.
    + rewrite Hclock. lia.
Qed.

Lemma second_notice_cleared_early_witness :
  let w1 := (Eff.run (backend_always 200 "")
               (GoogleDrivePage.setPopupWithExpiration (Some guard_popup))
               Eff.initial).2 in
  let w2 := (Eff.run (backend_always 200 "")
               (GoogleDrivePage.setPopupWithExpiration (Some created_notice))
               (Eff.advance 3000 w1)).2 in
  Eff.popup w2 = Some created_notice
  /\ Eff.timers w2
     = [(Eff.clock Eff.initial + 4000, Eff.ClearPopup);
        (Eff.clock Eff.initial + 3000 + 4000, Eff.ClearPopup)]
  /\ (forall dt, 0 <= dt < 4000 - 3000 ->
        Eff.popup (Eff.advance dt w2) = Some created_notice)
  /\ Eff.popup (Eff.advance (4000 - 3000) w2) = None.
Proof.
  apply (second_notice_cleared_early (backend_always 200 "") Eff.initial
           (Some guard_popup) (Some created_notice) 3000); [reflexivity | lia].
Defined.

(** ** What the connector pages present *)

(** X11: the loaded Notion page shows either the existing token or the
    credential form, never both; the "Step 1 first" notice comes with the
    credential form; the connector form is offered exactly when a
    credential is selected and no Notion connector exists, so never beside
    the connectors table. *)
Theorem notion_page_sections
    (popup : option Popup.PopupSpec)
    (connectorIndexingStatuses : list ConnectorIndexingStatus.t)
    (credentialsData : list Credential.t) :
  let page := NotionPage.page popup connectorIndexingStatuses credentialsData in
  let selected := bool_decide (is_Some (NotionPage.notionCredential credentialsData)) in
  let connectors :=
    (0 <? length (NotionPage.notionConnectorIndexingStatuses connectorIndexingStatuses))%nat in
  existsb is_existing_credential page = selected
  /\ existsb is_credential_form page = negb selected
  /\ existsb is_notice page = negb selected
  /\ existsb is_connectors_table page = connectors
  /\ View.offers_connector_creation page = selected && negb connectors.
Proof.
  intros page selected connectors. subst page selected connectors.
  unfold NotionPage.page, View.offers_connector_creation.
  rewrite !existsb_app.
  destruct (NotionPage.notionCredential credentialsData) as [c|], popup as [p|];
    destruct (NotionPage.notionConnectorIndexingStatuses connectorIndexingStatuses);
    done.
Qed.

(** X12: the loaded Google Drive page always offers the upload and the
    "Authenticate" button; it shows "Add" exactly when no connector has the
    source google_drive, and otherwise one status row with "Delete Connector",
    for the first such connector of the list, flagged when that connector
    lists no credential. *)
Theorem googleDrive_page_sections
    (popup : option Popup.PopupSpec) (client_id : option string)
    (connectorIndexingStatuses : list ConnectorIndexingStatus.t)
    (credentialsData : list Credential.t) :
  let page :=
    GoogleDrivePage.page popup client_id connectorIndexingStatuses credentialsData in
  has_button "Authenticate with Google Drive" page = true
  /\ has_button "Add" page = negb (has_button "Delete Connector" page)
  /\ match status_rows page with
     | [] =>
         has_button "Add" page = true
         /\ forall s, s ∈ connectorIndexingStatuses -> source_of s <> "google_drive"
     | [(s, flag)] =>
         has_button "Add" page = false
         /\ flag = bool_decide
                     (Connector.credential_ids (ConnectorIndexingStatus.connector s) = [])
         /\ exists i : nat,
              connectorIndexingStatuses !! i = Some s
              /\ source_of s = "google_drive"
              /\ forall (j : nat) s', (j < i)%nat ->
                   connectorIndexingStatuses !! j = Some s' ->
                   source_of s' <> "google_drive"
     | _ => False
     end.
Proof.
  intros page. subst page. unfold GoogleDrivePage.page, has_button, status_rows.
  rewrite !existsb_app, !omap_app.
  destruct (head _) as [s|] eqn:Hhead.
  - apply head_filter_Some in Hhead as (i & Hi & Hsrc & Hmin).
    destruct popup; simpl; (split; [done|]); (split; [done|]); (split; [done|]).
    all: split; [by destruct (Connector.credential_ids _)|]; by exists i.
  - pose proof (head_filter_None _ _ Hhead) as Hnone.
    destruct popup; simpl; (split; [done|]); (split; [done|]); by split.
Qed.

Lemma filter_lengths (l : list ConnectorIndexingStatus.t) :
  (length (SlackPage.slackConnectorIndexingStatuses l)
   + length (NotionPage.notionConnectorIndexingStatuses l)
   + length (GoogleDrivePage.googleDriveConnectorIndexingStatuses l)
   <= length l)%nat.
Proof.
  unfold SlackPage.slackConnectorIndexingStatuses,
    NotionPage.notionConnectorIndexingStatuses,
    GoogleDrivePage.googleDriveConnectorIndexingStatuses.
  induction l as [|s l IH]; [done|].
  rewrite !filter_cons.
  repeat case_decide; simpl; try lia; congruence.
Qed.

(** X13: each page lists the connectors of its own source, in the order
    they were fetched; a connector is listed by at most one of the three
    pages, so together they list no more connectors than were fetched. *)
Theorem status_filters_partition (l : list ConnectorIndexingStatus.t) :
  sublist (SlackPage.slackConnectorIndexingStatuses l) l
  /\ sublist (NotionPage.notionConnectorIndexingStatuses l) l
  /\ sublist (GoogleDrivePage.googleDriveConnectorIndexingStatuses l) l
  /\ (forall s,
        (s ∈ SlackPage.slackConnectorIndexingStatuses l
         <-> s ∈ l /\ source_of s = "slack")
        /\ (s ∈ NotionPage.notionConnectorIndexingStatuses l
            <-> s ∈ l /\ source_of s = "notion")
        /\ (s ∈ GoogleDrivePage.googleDriveConnectorIndexingStatuses l
            <-> s ∈ l /\ source_of s = "google_drive"))
  /\ (length (SlackPage.slackConnectorIndexingStatuses l)
      + length (NotionPage.notionConnectorIndexingStatuses l)
      + length (GoogleDrivePage.googleDriveConnectorIndexingStatuses l)
      <= length l)%nat.
Proof.
  split; [apply sublist_filter; apply _|].
  split; [apply sublist_filter; apply _|].
  split; [apply sublist_filter; apply _|].
  split; [|apply filter_lengths].
  intros s. unfold source_of, SlackPage.slackConnectorIndexingStatuses,
    NotionPage.notionConnectorIndexingStatuses,
    GoogleDrivePage.googleDriveConnectorIndexingStatuses.
  rewrite !list_elem_of_filter. tauto.
Qed.

(** ** The bot page as a whole *)

(** X14: the bot page shows the table of configs exactly when the configs
    are loaded without error, tokens are saved and there is at least one
    config; without tokens it shows the token form and neither the table
    nor the link to a new configuration; it never shows two token forms. *)
Theorem bot_main_sections
    (slackBotTokensModalIsOpen : bool) (popup : option Popup.PopupSpec)
    (configs : Lib.Swr (list SlackBotConfig.t))
    (slackBotTokens : option BotMain.SlackBotTokens) :
  let page := BotMain.Main slackBotTokensModalIsOpen popup configs slackBotTokens in
  (existsb BotMain.is_table page = true
   <-> Lib.isLoading configs = false /\ Lib.error configs = false
       /\ is_Some slackBotTokens
       /\ exists slackBotConfigs,
            Lib.data configs = Some slackBotConfigs /\ slackBotConfigs <> [])
  /\ (slackBotTokens = None ->
      existsb BotMain.is_table page = false
      /\ existsb BotMain.is_new_link page = false)
  /\ (length (filter (fun e => BotMain.is_tokens_form e = true) page) <= 1)%nat.
Proof.
  intros page. subst page. unfold BotMain.Main.
  destruct (Lib.isLoading configs), (Lib.error configs),
    (Lib.data configs) as [cs|], slackBotTokens as [t|], popup as [p|],
    slackBotTokensModalIsOpen;
    try destruct cs as [|c cs]; simpl;
    (split; [split; [try done; intros _; eauto 10
                    | intros (? & ? & [? ?] & ? & ? & ?); simplify_eq; done]|]);
    (split; [try done|]); try lia.
Qed.

(** ** Selecting sources *)



(** X16: selecting a source and clicking it again gives back the selection
    as it was, provided no selected source had its internal name. *)
Theorem handleSelect_round_trip (source : Selector.Source) (prev : list Selector.Source) :
  (forall s, s ∈ prev -> Selector.internalName s <> Selector.internalName source) ->
  Selector.handleSelect source (Selector.handleSelect source prev) = prev.
Proof.
  intros Hfresh.
  assert (source ∉ prev) as Hnotin by (intros Hin; by apply (Hfresh source)).
  unfold Selector.handleSelect at 2. unfold Selector.includes.
  rewrite bool_decide_eq_false_2 by done.
  unfold Selector.handleSelect, Selector.includes.
  rewrite bool_decide_eq_true_2 by (apply elem_of_app; right; left).
  rewrite filter_app, filter_cons, filter_nil.
  rewrite decide_False by (intros Hne; by apply Hne).
  rewrite app_nil_r. clear Hnotin.
  induction prev as [|s prev IH]; [done|].
  rewrite filter_cons, decide_True by (apply Hfresh; left).
  f_equal. apply IH. intros s' Hs'. apply Hfresh. by right.
Qed.

Lemma handleSelect_round_trip_witness :
  Selector.handleSelect
    {| Selector.ref := 1; Selector.displayName := "Slack";
       Selector.internalName := "slack" |}
    (Selector.handleSelect
       {| Selector.ref := 1; Selector.displayName := "Slack";
          Selector.internalName := "slack" |}
       [ {| Selector.ref := 4; Selector.displayName := "Web";
            Selector.internalName := "web" |} ])
  = [ {| Selector.ref := 4; Selector.displayName := "Web";
         Selector.internalName := "web" |} ].
Proof.
  apply handleSelect_round_trip.
  intros s Hs. apply list_elem_of_singleton in Hs as ->. simpl. discriminate.
Defined.

(** X17: the filter list renders without throwing exactly when "confluence"
    is not among the existing sources; it then shows, in the fixed order
    Google Drive, Slack, Github, Web, the icons of those that exist, each of
    size 16, whatever the order of the existing sources. *)
Theorem SourceSelector_rows (existingSources : list string) :
  if bool_decide ("confluence" ∈ existingSources)
  then Source.SourceSelector existingSources
       = inl (Js.PlainError "Invalid source type")
  else Source.SourceSelector existingSources
       = inr (map (fun p : string * Source.Icon =>
                     {| Source.icon_of := p.2; Source.size := "16" |})
                (filter (fun p : string * Source.Icon => p.1 ∈ existingSources)
                   [("google_drive", Source.GoogleDriveIcon);
                    ("slack", Source.SlackIcon);
                    ("github", Source.GithubIcon);
                    ("web", Source.GlobeIcon)])).
Proof.
  unfold Source.SourceSelector, Source.sources.
  rewrite !filter_cons, !filter_nil.
  case_bool_decide as Hc; repeat case_decide; simpl in *;
    first [contradiction | reflexivity].
Qed.

(** ** The hover popup *)

Lemma hover_after_snoc (es : list HoverPopup.MouseEvent) (e : HoverPopup.MouseEvent) :
  HoverPopup.after (es ++ [e]) = HoverPopup.handle (HoverPopup.after es) e.
Proof. unfold HoverPopup.after. by rewrite foldl_app. Qed.

(** X18: the popup box is shown exactly when the last mouse event was an
    enter (and not before any event); the main content is always shown; and
    the component has written one line to the console per enter. *)
Theorem hover_popup_follows_last_event
    (p : HoverPopup.Props) (es : list HoverPopup.MouseEvent) :
  HoverPopup.popupBox (HoverPopup.render p (HoverPopup.after es))
  = match last es with
    | Some HoverPopup.MouseEnter =>
        Some (HoverPopup.className p, HoverPopup.popupContent p)
    | _ => None
    end
  /\ HoverPopup.main (HoverPopup.render p (HoverPopup.after es))
     = HoverPopup.mainContent p
  /\ length (HoverPopup.console (HoverPopup.after es))
     = length (filter (fun e => e = HoverPopup.MouseEnter) es).
Proof.
  split; [|split; [done|]].
  - destruct es as [|e es _] using rev_ind; [done|].
    rewrite hover_after_snoc, last_snoc. by destruct e.
  - induction es as [|e es IH] using rev_ind; [done|].
    rewrite hover_after_snoc, filter_app, length_app, <- IH.
    destruct e; simpl; rewrite ?length_app; simpl; lia.
Qed.

(** ** The admin sidebar *)

Lemma itemLinks_collection (c : AdminSidebar.Collection) (rest : list AdminSidebar.Node) :
  AdminSidebar.itemLinks (AdminSidebar.collectionNodes c ++ rest)
  = map (fun i => (AdminSidebar.link i, AdminSidebar.name i)) (AdminSidebar.items c)
    ++ AdminSidebar.itemLinks rest.
Proof.
  unfold AdminSidebar.collectionNodes, AdminSidebar.itemLinks. simpl.
  induction (AdminSidebar.items c) as [|i l IH]; [done|]. simpl. by rewrite IH.
Qed.

(** X19: without settings the sidebar renders nothing.  With settings, the
    header title is never empty (an absent or empty application name falls
    back to "Danswer"), the "Powered by Danswer" line appears only under a
    custom name and with the switch off, the home link goes to /chat exactly
    when the default page is "chat" and to /search otherwise, and the items
    of all collections follow as links in the order given. *)
Theorem admin_sidebar_nodes
    (toggle_off_danswer_powered : bool) (c : AdminSidebar.CombinedSettings)
    (collections : list AdminSidebar.Collection) :
  AdminSidebar.AdminSidebar toggle_off_danswer_powered None collections = None
  /\ exists href title powered rest,
       AdminSidebar.AdminSidebar toggle_off_danswer_powered (Some c) collections
       = Some (AdminSidebar.HomeLink href title powered
               :: AdminSidebar.BackToDanswer "/chat" :: rest)
       /\ title <> ""
       /\ (powered = true ->
           toggle_off_danswer_powered = false
           /\ exists e, AdminSidebar.enterpriseSettings c = Some e
                        /\ AdminSidebar.application_name e = Some title)
       /\ (href = "/chat"
           <-> exists s, AdminSidebar.settings c = Some s
                         /\ AdminSidebar.default_page s = "chat")
       /\ (href = "/chat" \/ href = "/search")
       /\ AdminSidebar.itemLinks rest
          = concat
              (map (fun col =>
                      map (fun i => (AdminSidebar.link i, AdminSidebar.name i))
                        (AdminSidebar.items col))
                 collections).
Proof.
  split; [done|].
  assert (AdminSidebar.itemLinks (concat (map AdminSidebar.collectionNodes collections))
          = concat
              (map (fun col =>
                      map (fun i => (AdminSidebar.link i, AdminSidebar.name i))
                        (AdminSidebar.items col))
                 collections)) as Hlinks.
  { induction collections as [|col l IH]; [done|].
    cbn [map concat]. by rewrite itemLinks_collection, IH. }
  assert ((AdminSidebar.homeHref c = "/chat"
           <-> exists s, AdminSidebar.settings c = Some s
                         /\ AdminSidebar.default_page s = "chat")
          /\ (AdminSidebar.homeHref c = "/chat" \/ AdminSidebar.homeHref c = "/search"))
    as [Hchat Hhref].
  { unfold AdminSidebar.homeHref. destruct (AdminSidebar.settings c) as [s|].
    - destruct (String.eqb_spec (AdminSidebar.default_page s) "chat") as [Heq|Hne].
      + split; [|by left]. split; [by exists s | done].
      + split; [|by right]. split; [done|]. intros (s' & [= <-] & Hs'). done.
    - split; [|by right]. split; [done|]. by intros (s' & ? & _). }
  unfold AdminSidebar.AdminSidebar, AdminSidebar.customName.
  destruct (AdminSidebar.enterpriseSettings c) as [e|] eqn:He.
  - destruct (AdminSidebar.application_name e) as [n|] eqn:Hn.
    + destruct (String.eqb_spec n "") as [->|Hne].
      * do 4 eexists. split; [reflexivity|]. by repeat (split; [done|]).
      * do 4 eexists. split; [reflexivity|].
        split; [done|]. split; [|done].
        intros Hp. apply negb_true_iff in Hp. split; [done|]. by exists e.
    + do 4 eexists. split; [reflexivity|]. by repeat (split; [done|]).
  - do 4 eexists. split; [reflexivity|]. by repeat (split; [done|]).
Qed.

(** ** The popup over the life of the Google Drive page *)

(** X20: in every state the Google Drive page reaches by clicks and by
    time passing, a popup on screen has a pending timer that is due within
    4000 ms; so 4000 ms without a click always end with no popup. *)
Theorem drive_popup_always_expires (w : Eff.World) (dt : Z) :
  drive_reachable w -> 4000 <= dt ->
  expiring w /\ Eff.popup (Eff.advance dt w) = None.
Proof.
  intros Hreach Hdt.
  assert (expiring w) as Hw.
  { induction Hreach as [|b p w Hp _ IH|d w Hd _ IH].
    - by left.
    - apply run_expiring; [|done].
      destruct Hp as [str| |c|s];
        [ apply (googleDrive_handlers_expiring str None (make_connector 0 "" []))
        | apply (googleDrive_handlers_expiring None None (make_connector 0 "" []))
        | apply (googleDrive_handlers_expiring None c (make_connector 0 "" []))
        | apply (googleDrive_handlers_expiring None None s) ].
    - by apply advance_expiring. }
  split; [done|]. by apply expiring_cleared.
Qed.

Lemma drive_popup_always_expires_witness :
  expiring
    (Eff.run (backend_always 503 "") (GoogleDrivePage.add_onClick None) Eff.initial).2
  /\ Eff.popup
       (Eff.advance 4000
          (Eff.run (backend_always 503 "") (GoogleDrivePage.add_onClick None)
             Eff.initial).2)
     = None.
Proof.
  apply drive_popup_always_expires; [|lia].
  apply reach_click; [apply handler_add | apply reach_initial].
Defined.
